(** * Freelance Workflow Engine: the milestone / payment settlement workflow

    A shallow embedding of [Project.cpp].  Every C++ class becomes a module
    holding its data (a record or a variant) and its member functions.  A
    member function is a computation in a state-and-exception monad whose
    state pairs the receiver object with the outside world (the two console
    streams and the file system).  Pointers that the program may leave null
    are options; dereferencing [None] is a crash, which no [catch] clause
    handles. *)

From Stdlib Require Import PrimFloat SpecFloat FloatOps FloatAxioms.
From stdpp Require Import base option list strings gmap.

(** ** Numbers, streams, the outside world *)

(** C++ [double] is IEEE 754 binary64, which is what Rocq's primitive
    floats are.  [x <= 0] and [x < 0] in the source compare with the integer
    literal converted to [0.0]. *)
Abbreviation double := float.

Definition dzero : double := 0%float.
Definition dle (x y : double) : bool := PrimFloat.leb x y.
Definition dlt (x y : double) : bool := PrimFloat.ltb x y.
Definition dmul (x y : double) : double := PrimFloat.mul x y.

(** One operand of [operator<<].  A [double] is kept as the number that was
    inserted (its decimal rendering is the standard library's business);
    [BuildDate] and [BuildTime] are the string literals that the preprocessor
    substitutes for [__DATE__] and [__TIME__]. *)
Inductive item : Type :=
| Str (s : string)
| Dbl (d : double)
| Endl
| BuildDate
| BuildTime.

Definition stream : Type := list item.

Definition nl : string := String (Ascii.ascii_of_nat 10) "".

(** Entries of member functions that the properties talk about.  The list is
    ghost state: the program never reads it. *)
Inductive call : Type :=
| Call_processPayment
| Call_logPaymentReceipt (milestoneTitle : string) (amount : double)
                         (paymentType : string).

Record World : Type := mkWorld {
  cout : stream;
  cerr : stream;
  files : gmap string stream;      (* content of each existing file *)
  unwritable : gset string;        (* paths an [ofstream] fails to open *)
  calls : list call
}.

Definition put_cout (l : stream) (w : World) : World :=
  mkWorld (cout w ++ l) (cerr w) (files w) (unwritable w) (calls w).
Definition put_cerr (l : stream) (w : World) : World :=
  mkWorld (cout w) (cerr w ++ l) (files w) (unwritable w) (calls w).
Definition append_file (path : string) (l : stream) (w : World) : World :=
  mkWorld (cout w) (cerr w)
          (<[path := default [] (files w !! path) ++ l]> (files w))
          (unwritable w) (calls w).
Definition record_call (c : call) (w : World) : World :=
  mkWorld (cout w) (cerr w) (files w) (unwritable w) (calls w ++ [c]).

(** ** Exceptions and crashes *)

(** The three custom classes derive from [runtime_error]; the logger throws
    a plain [runtime_error] with its own message. *)
Inductive exn : Type :=
| InvalidHoursException
| NullPointerException
| PaymentFailureException
| runtime_error (msg : string).

Definition what (e : exn) : string :=
  match e with
  | InvalidHoursException => "Invalid hours worked: cannot be negative or zero"
  | NullPointerException => "Null pointer access attempted"
  | PaymentFailureException =>
      "Payment processing failed: amount is zero or negative"
  | runtime_error msg => msg
  end.

(** [catch (const exception&)] matches an object whose class derives from
    [std::exception]; [runtime_error] does, hence so do the other three. *)
Definition derives_from_std_exception (e : exn) : bool :=
  match e with
  | InvalidHoursException => true
  | NullPointerException => true
  | PaymentFailureException => true
  | runtime_error _ => true
  end.

Inductive pointer : Type :=
| ptr_client | ptr_freelancer | ptr_milestone | ptr_logger | ptr_paymentMethod.

Inductive fault : Type :=
| NullDereference (p : pointer).

Inductive outcome (A : Type) : Type :=
| Normal (a : A)
| Raise (e : exn)
| Crash (f : fault).
Arguments Normal {A} a.
Arguments Raise {A} e.
Arguments Crash {A} f.

(** ** The monad *)

Definition M (S A : Type) : Type := S -> outcome A * S.

Global Instance M_ret {S} : MRet (M S) := fun A a s => (Normal a, s).
Global Instance M_bind {S} : MBind (M S) := fun A B f m s =>
  match m s with
  | (Normal a, s') => f a s'
  | (Raise e, s') => (Raise e, s')
  | (Crash c, s') => (Crash c, s')
  end.

Definition throw {S A} (e : exn) : M S A := fun s => (Raise e, s).
Definition crash {S A} (c : fault) : M S A := fun s => (Crash c, s).

(** [try { body } catch (const exception& e) { handler }] *)
Definition try_catch {S A} (body : M S A) (handler : exn -> M S A) : M S A :=
  fun s =>
    match body s with
    | (Raise e, s') =>
        if derives_from_std_exception e then handler e s' else (Raise e, s')
    | r => r
    end.

(** A member function of class [T]: the state is the receiver and the world. *)
Definition Method (T A : Type) : Type := M (T * World) A.

Definition this {T} : Method T T := fun s => (Normal (fst s), s).
Definition assign {T} (f : T -> T) : Method T unit :=
  fun s => (Normal tt, (f (fst s), snd s)).
Definition effect {T} (f : World -> World) : Method T unit :=
  fun s => (Normal tt, (fst s, f (snd s))).
Definition world {T} : Method T World := fun s => (Normal (snd s), s).

Definition to_cout {T} (l : stream) : Method T unit := effect (put_cout l).
Definition to_cerr {T} (l : stream) : Method T unit := effect (put_cerr l).

(** [ptr->f()] where [ptr] is the member read by [get] and written back by
    [set]: a null [ptr] crashes, otherwise [f] runs on the pointee, which is
    owned by the receiver and so is updated in place. *)
Definition arrow {T U A} (name : pointer) (get : T -> option U)
    (set : T -> U -> T) (f : Method U A) : Method T A :=
  fun s =>
    match get (fst s) with
    | None => crash (NullDereference name) s
    | Some u =>
        let '(r, (u', w')) := f (u, snd s) in (r, (set (fst s) u', w'))
    end.

(** What a run left behind. *)
Definition outcome_of {A S} (r : outcome A * S) : outcome A := fst r.
Definition object_of {A T} (r : outcome A * (T * World)) : T := fst (snd r).
Definition world_of {A T} (r : outcome A * (T * World)) : World := snd (snd r).

Definition is_null {A} (p : option A) : bool :=
  match p with None => true | Some _ => false end.

(** ** class User, Client, Freelancer *)

Module User.
Inductive t : Type :=
| Client (name email companyName : string)
| Freelancer (name email skillSet : string) (hourlyRate : double).

(** virtual, [const] *)
Definition displayInfo : Method t unit :=
  u ← this;
  match u with
  | Client name email companyName =>
      to_cout [Str "Client: "; Str name; Str " ("; Str companyName;
               Str ") - "; Str email; Endl]
  | Freelancer name email skillSet hourlyRate =>
      to_cout [Str "Freelancer: "; Str name; Str " - Skills: "; Str skillSet;
               Str " - Rate: $"; Dbl hourlyRate; Str "/hr - "; Str email; Endl]
  end.
End User.

(** ** class Payment, Escrow, Direct *)

Module Payment.
Inductive t : Type :=
| Escrow (amount : double)
| Direct (amount : double).

Definition getAmount (p : t) : double :=
  match p with Escrow amount => amount | Direct amount => amount end.

(** virtual, [const] *)
Definition getPaymentType : Method t string :=
  p ← this;
  match p with
  | Escrow _ => mret "Escrow"
  | Direct _ => mret "Direct"
  end.

(** virtual *)
Definition processPayment : Method t unit :=
  effect (record_call Call_processPayment);;
  p ← this;
  match p with
  | Escrow amount =>
      to_cout [Str "Processing escrow payment of $"; Dbl amount; Endl];;
      to_cout [Str "Funds held in escrow until milestone completion..."; Endl]
  | Direct amount =>
      to_cout [Str "Processing direct payment of $"; Dbl amount; Endl];;
      to_cout [Str "Payment transferred immediately..."; Endl]
  end.
End Payment.

(** ** class Milestone: the members of the base class *)

Module Milestone.
Record t : Type := mk {
  title : string;
  description : string;
  isCompleted : bool;
  paymentMethod : option Payment.t    (* [Payment*], public *)
}.

(** The constructor starts every milestone as pending. *)
Definition new (milestoneTitle milestoneDesc : string)
    (payment : option Payment.t) : t :=
  mk milestoneTitle milestoneDesc false payment.

Definition set_isCompleted (b : bool) (m : t) : t :=
  mk (title m) (description m) b (paymentMethod m).
Definition set_paymentMethod (m : t) (p : Payment.t) : t :=
  mk (title m) (description m) (isCompleted m) (Some p).

Definition displayMilestone : Method t unit :=
  m ← this;
  to_cout [Str "Milestone: "; Str (title m); Endl];;
  to_cout [Str "Description: "; Str (description m); Endl];;
  to_cout [Str "Status: ";
           Str (if isCompleted m then "Completed" else "Pending"); Endl];;
  to_cout [Str "Payment Method: "];;
  ty ← arrow ptr_paymentMethod paymentMethod set_paymentMethod
             Payment.getPaymentType;
  to_cout [Str ty; Endl].

Definition getTitle : Method t string := m ← this; mret (title m).
Definition getIsCompleted : Method t bool := m ← this; mret (isCompleted m).
End Milestone.

(** ** class FixedPriceMilestone *)

Module FixedPriceMilestone.
Record t : Type := mk {
  base : Milestone.t;
  fixedAmount : double
}.

Definition new (title desc : string) (payment : option Payment.t)
    (amount : double) : t :=
  mk (Milestone.new title desc payment) amount.

Definition set_base (m : t) (b : Milestone.t) : t := mk b (fixedAmount m).

Definition calculatePayment : Method t double :=
  m ← this;
  if Milestone.isCompleted (base m) then mret (fixedAmount m)
  else mret dzero.

Definition complete : Method t unit :=
  assign (fun m => set_base m (Milestone.set_isCompleted true (base m)));;
  m ← this;
  to_cout [Str "Fixed-price milestone '"; Str (Milestone.title (base m));
           Str "' completed!"; Endl];;
  to_cout [Str "Payment amount: $"];;
  a ← calculatePayment;
  to_cout [Dbl a; Endl].
End FixedPriceMilestone.

(** ** class HourlyMilestone *)

Module HourlyMilestone.
Record t : Type := mk {
  base : Milestone.t;
  hoursWorked : double;
  hourlyRate : double
}.

Definition new (title desc : string) (payment : option Payment.t)
    (rate : double) : t :=
  mk (Milestone.new title desc payment) dzero rate.

Definition set_base (m : t) (b : Milestone.t) : t :=
  mk b (hoursWorked m) (hourlyRate m).

Definition calculatePayment : Method t double :=
  m ← this;
  if Milestone.isCompleted (base m)
  then mret (dmul (hoursWorked m) (hourlyRate m))
  else mret dzero.

Definition complete : Method t unit :=
  m ← this;
  (if dle (hoursWorked m) dzero then throw InvalidHoursException
   else mret tt);;
  assign (fun m => set_base m (Milestone.set_isCompleted true (base m)));;
  to_cout [Str "Hourly milestone '"; Str (Milestone.title (base m));
           Str "' completed!"; Endl];;
  to_cout [Str "Hours worked: "; Dbl (hoursWorked m); Str " at $";
           Dbl (hourlyRate m); Str "/hr"; Endl];;
  to_cout [Str "Payment amount: $"];;
  a ← calculatePayment;
  to_cout [Dbl a; Endl].

Definition setHoursWorked (hours : double) : Method t unit :=
  (if dlt hours dzero then throw InvalidHoursException else mret tt);;
  assign (fun m => mk (base m) hours (hourlyRate m)).
End HourlyMilestone.

(** ** An object behind a [Milestone*]

    Its dynamic type is one of the two concrete classes; the virtual member
    functions dispatch on it, the others act on the base part. *)

Module DynMilestone.
Inductive t : Type :=
| Fixed (m : FixedPriceMilestone.t)
| Hourly (m : HourlyMilestone.t).

Definition base (m : t) : Milestone.t :=
  match m with
  | Fixed f => FixedPriceMilestone.base f
  | Hourly h => HourlyMilestone.base h
  end.

Definition set_base (m : t) (b : Milestone.t) : t :=
  match m with
  | Fixed f => Fixed (FixedPriceMilestone.set_base f b)
  | Hourly h => Hourly (HourlyMilestone.set_base h b)
  end.

(** Run a member function of the concrete class on the object. *)
Definition dispatch {A} (f : Method FixedPriceMilestone.t A)
    (h : Method HourlyMilestone.t A) : Method t A :=
  fun s =>
    match fst s with
    | Fixed m => let '(r, (m', w')) := f (m, snd s) in (r, (Fixed m', w'))
    | Hourly m => let '(r, (m', w')) := h (m, snd s) in (r, (Hourly m', w'))
    end.

(** Run a member function of the base class on the object. *)
Definition inherited {A} (f : Method Milestone.t A) : Method t A :=
  fun s =>
    let '(r, (b', w')) := f (base (fst s), snd s) in
    (r, (set_base (fst s) b', w')).

Definition calculatePayment : Method t double :=
  dispatch FixedPriceMilestone.calculatePayment
           HourlyMilestone.calculatePayment.
Definition complete : Method t unit :=
  dispatch FixedPriceMilestone.complete HourlyMilestone.complete.
Definition displayMilestone : Method t unit :=
  inherited Milestone.displayMilestone.
Definition getTitle : Method t string := inherited Milestone.getTitle.

(** [m->paymentMethod->f()] *)
Definition paymentMethod_arrow {A} (f : Method Payment.t A) : Method t A :=
  inherited (arrow ptr_paymentMethod Milestone.paymentMethod
                   Milestone.set_paymentMethod f).
End DynMilestone.

(** ** class Logger *)

Module Logger.
Record t : Type := mk { logFileName : string }.

(** [ofstream logFile(logFileName, ios::app)] either fails to open, or
    creates the file when it is missing and appends what is inserted. *)
Definition logPaymentReceipt (milestoneTitle : string) (amount : double)
    (paymentType : string) : Method t unit :=
  effect (record_call
            (Call_logPaymentReceipt milestoneTitle amount paymentType));;
  lg ← this;
  w ← world;
  (if bool_decide (logFileName lg ∈ unwritable w)
   then throw (runtime_error "Unable to open log file")
   else mret tt);;
  let logFile := append_file (logFileName lg) in
  effect (logFile [Str "=== PAYMENT RECEIPT ==="; Endl]);;
  effect (logFile [Str "Milestone: "; Str milestoneTitle; Endl]);;
  effect (logFile [Str "Amount: $"; Dbl amount; Endl]);;
  effect (logFile [Str "Payment Type: "; Str paymentType; Endl]);;
  effect (logFile [Str "Timestamp: "; BuildDate; Str " "; BuildTime; Endl]);;
  effect (logFile [Str "========================"; Endl; Endl]);;
  to_cout [Str "Payment receipt logged to file: "; Str (logFileName lg);
           Endl].

(** The block one call appends. *)
Definition receipt (milestoneTitle : string) (amount : double)
    (paymentType : string) : stream :=
  [Str "=== PAYMENT RECEIPT ==="; Endl;
   Str "Milestone: "; Str milestoneTitle; Endl;
   Str "Amount: $"; Dbl amount; Endl;
   Str "Payment Type: "; Str paymentType; Endl;
   Str "Timestamp: "; BuildDate; Str " "; BuildTime; Endl;
   Str "========================"; Endl; Endl].
End Logger.

(** ** class Project *)

Module Project.
Record t : Type := mk {
  projectName : string;
  client : option User.t;              (* [User*] *)
  freelancer : option User.t;          (* [User*] *)
  milestone : option DynMilestone.t;   (* [Milestone*] *)
  logger : option Logger.t             (* [Logger*] *)
}.

Definition set_client (p : t) (u : User.t) : t :=
  mk (projectName p) (Some u) (freelancer p) (milestone p) (logger p).
Definition set_freelancer (p : t) (u : User.t) : t :=
  mk (projectName p) (client p) (Some u) (milestone p) (logger p).
Definition set_milestone (p : t) (m : DynMilestone.t) : t :=
  mk (projectName p) (client p) (freelancer p) (Some m) (logger p).
Definition set_logger (p : t) (l : Logger.t) : t :=
  mk (projectName p) (client p) (freelancer p) (milestone p) (Some l).

Definition client_arrow {A} := @arrow t _ A ptr_client client set_client.
Definition freelancer_arrow {A} :=
  @arrow t _ A ptr_freelancer freelancer set_freelancer.
Definition milestone_arrow {A} :=
  @arrow t _ A ptr_milestone milestone set_milestone.
Definition logger_arrow {A} := @arrow t _ A ptr_logger logger set_logger.

(** The statements inside [try { ... }]. *)
Definition workflow : Method t unit :=
  p ← this;
  (if is_null (client p) || is_null (freelancer p) || is_null (milestone p)
   then throw NullPointerException else mret tt);;
  to_cout [Str (nl +:+ "=== PROJECT WORKFLOW START ==="); Endl];;
  to_cout [Str "Project: "; Str (projectName p); Endl; Endl];;
  to_cout [Str "Participants:"; Endl];;
  client_arrow User.displayInfo;;
  freelancer_arrow User.displayInfo;;
  to_cout [Endl];;
  to_cout [Str "Milestone Details:"; Endl];;
  milestone_arrow DynMilestone.displayMilestone;;
  to_cout [Endl];;
  milestone_arrow DynMilestone.complete;;
  paymentAmount ← milestone_arrow DynMilestone.calculatePayment;
  (if dle paymentAmount dzero then throw PaymentFailureException
   else mret tt);;
  milestone_arrow (DynMilestone.paymentMethod_arrow Payment.processPayment);;
  title ← milestone_arrow DynMilestone.getTitle;
  paymentType ← milestone_arrow
                  (DynMilestone.paymentMethod_arrow Payment.getPaymentType);
  logger_arrow (Logger.logPaymentReceipt title paymentAmount paymentType);;
  to_cout [Str (nl +:+ "=== PROJECT WORKFLOW COMPLETED SUCCESSFULLY ===");
           Endl].

Definition executeProjectWorkflow : Method t unit :=
  try_catch workflow
    (fun e => to_cerr [Str "Error during execution: "; Str (what e); Endl]).
End Project.

(** ** The free functions of the program

    A free function runs on the world alone; its objects are local. *)

Definition Program (A : Type) : Type := M World A.

Definition print (l : stream) : Program unit :=
  fun w => (Normal tt, put_cout l w).

(** [o->f()] on a local object [o]: the value returned and the object as the
    call left it. *)
Definition invoke {T A} (f : Method T A) (o : T) : Program (A * T) :=
  fun w =>
    let '(r, (o', w')) := f (o, w) in
    (match r with
     | Normal a => Normal (a, o')
     | Raise e => Raise e
     | Crash c => Crash c
     end, w').

(** [try { body } catch (const C& e) { handler }] for the class [C] that
    [matches] recognises. *)
Definition try_catch_as {S A} (matches : exn -> bool) (body : M S A)
    (handler : exn -> M S A) : M S A :=
  fun s =>
    match body s with
    | (Raise e, s') => if matches e then handler e s' else (Raise e, s')
    | r => r
    end.

(** No class derives from [InvalidHoursException]. *)
Definition is_InvalidHoursException (e : exn) : bool :=
  match e with
  | InvalidHoursException => true
  | _ => false
  end.

Definition runHardcodedDemos : Program unit :=
  let logger := Logger.mk "payment_receipts.txt" in
  print [Str (nl +:+ "--- Demo 1: Fixed Price ---"); Endl];;
  let client1 := User.Client "John Smith" "john@company.com" "TechCorp" in
  let freelancer1 :=
    User.Freelancer "Alice Johnson" "alice@freelance.com" "C++ Development"
      75%float in
  let escrowPayment := Payment.Escrow 2500%float in
  let fixedMilestone :=
    FixedPriceMilestone.new "Website" "Full stack" (Some escrowPayment)
      2500%float in
  let project1 :=
    Project.mk "E-Commerce Website" (Some client1) (Some freelancer1)
      (Some (DynMilestone.Fixed fixedMilestone)) (Some logger) in
  invoke Project.executeProjectWorkflow project1;;
  print [Str (nl +:+ "--- Demo 2: Exception Handling ---"); Endl];;
  try_catch_as is_InvalidHoursException
    (let client3 := User.Client "Test Client" "test@test.com" "TestCo" in
     let freelancer3 :=
       User.Freelancer "Test Freelancer" "test@free.com" "Testing" 50%float in
     let badMilestone :=
       HourlyMilestone.new "Test Milestone" "Testing exceptions"
         (Some (Payment.Direct 0%float)) 50%float in
     r ← invoke (HourlyMilestone.setHoursWorked (-5)%float) badMilestone;
     let badMilestone := snd r in
     let project3 :=
       Project.mk "Test Project" (Some client3) (Some freelancer3)
         (Some (DynMilestone.Hourly badMilestone))
         (Some (Logger.mk "payment_receipts.txt")) in
     invoke Project.executeProjectWorkflow project3;;
     mret tt)
    (fun e => print [Str "Caught expected exception: "; Str (what e); Endl]).

(** ** Console input

    [std::cin] belongs to the standard library: its state and the four
    operations the program performs on it are parameters.
    - [cin_getline c]: [getline(cin, s)] on a string [s] that is empty before
      the call (the program reads each of its strings once, right after its
      default construction): the content of [s] afterwards.
    - [cin_double c], [cin_int c]: [cin >> v] on a local [v] that has no
      value yet: [Some x] when the operation stores [x] in [v], [None] when
      it leaves [v] without a value.
    - [cin_clear_ignore c]: [cin.clear()] followed by
      [cin.ignore(numeric_limits<streamsize>::max(), '\n')].
    Each gives the state of the stream after the operation. *)
Class ConsoleInput : Type := {
  Cin : Type;
  cin_getline : Cin -> string * Cin;
  cin_double : Cin -> option double * Cin;
  cin_int : Cin -> option Z * Cin;
  cin_clear_ignore : Cin -> Cin
}.

(** Reading a local that was never given a value is undefined behaviour,
    like a null dereference inside an object. *)
Inductive cli_fault : Type :=
| UninitialisedRead (variable : string)
| ObjectFault (f : fault).

Inductive cli_outcome (A : Type) : Type :=
| Returned (a : A)
| Thrown (e : exn)
| Undefined (f : cli_fault).
Arguments Returned {A} a.
Arguments Thrown {A} e.
Arguments Undefined {A} f.

Section Interactive.
Context `{ConsoleInput}.

(** A function that uses both consoles: the state is the world and
    [cin]. *)
Definition Interactive (A : Type) : Type :=
  World * Cin -> cli_outcome A * (World * Cin).

Global Instance Interactive_ret : MRet Interactive :=
  fun A a s => (Returned a, s).
Global Instance Interactive_bind : MBind Interactive := fun A B f m s =>
  match m s with
  | (Returned a, s') => f a s'
  | (Thrown e, s') => (Thrown e, s')
  | (Undefined c, s') => (Undefined c, s')
  end.

Definition say (l : stream) : Interactive unit :=
  fun s => (Returned tt, (put_cout l (fst s), snd s)).

Definition getline : Interactive string :=
  fun s => let '(line, c) := cin_getline (snd s) in (Returned line, (fst s, c)).
Definition extract_double : Interactive (option double) :=
  fun s => let '(v, c) := cin_double (snd s) in (Returned v, (fst s, c)).
Definition extract_int : Interactive (option Z) :=
  fun s => let '(v, c) := cin_int (snd s) in (Returned v, (fst s, c)).

(** The value of the local [variable]. *)
Definition value_of {A} (variable : string) (v : option A) : Interactive A :=
  fun s =>
    match v with
    | Some a => (Returned a, s)
    | None => (Undefined (UninitialisedRead variable), s)
    end.

(** A call of a function that does not read [cin]. *)
Definition run_program {A} (p : Program A) : Interactive A :=
  fun s =>
    let '(r, w') := p (fst s) in
    (match r with
     | Normal a => Returned a
     | Raise e => Thrown e
     | Crash c => Undefined (ObjectFault c)
     end, (w', snd s)).

(** [try { body } catch (...) { handler }] *)
Definition try_catch_all {A} (body handler : Interactive A) : Interactive A :=
  fun s =>
    match body s with
    | (Thrown _, s') => handler s'
    | r => r
    end.

Definition clearInput : Interactive unit :=
  fun s => (Returned tt, (fst s, cin_clear_ignore (snd s))).

(** [runCustomProject]: the object creation leaves [milestone] null exactly
    when the [catch] clause returns from the function. *)
Definition runCustomProject : Interactive unit :=
  say [Str (nl +:+ "--- CREATE CUSTOM PROJECT ---" +:+ nl)];;
  clearInput;;
  say [Str "Enter Client Name: "];; cName ← getline;
  say [Str "Enter Client Email: "];; cEmail ← getline;
  say [Str "Enter Client Company: "];; cCompany ← getline;
  say [Str "Enter Freelancer Name: "];; fName ← getline;
  say [Str "Enter Freelancer Email: "];; fEmail ← getline;
  say [Str "Enter Freelancer Skill: "];; fSkill ← getline;
  say [Str "Enter Freelancer Hourly Rate: "];; fRate ← extract_double;
  clearInput;;
  say [Str "Enter Project Name: "];; pName ← getline;
  say [Str "Enter Milestone Title: "];; mTitle ← getline;
  say [Str "Enter Milestone Description: "];; mDesc ← getline;
  say [Str "Select Milestone Type (1: Fixed Price, 2: Hourly): "];;
  typeChoice ← extract_int;
  say [Str "Select Payment Method (1: Escrow, 2: Direct): "];;
  payChoice ← extract_int;
  let client := User.Client cName cEmail cCompany in
  rate ← value_of "fRate" fRate;
  let freelancer := User.Freelancer fName fEmail fSkill rate in
  pc ← value_of "payChoice" payChoice;
  let payment :=
    if (pc =? 1)%Z then Payment.Escrow 0%float else Payment.Direct 0%float in
  tc ← value_of "typeChoice" typeChoice;
  milestone ←
    (if (tc =? 1)%Z then
       say [Str "Enter Fixed Price Amount: "];;
       mAmount ← extract_double;
       amount ← value_of "mAmount" mAmount;
       let payment :=
         if (pc =? 1)%Z then Payment.Escrow amount
         else Payment.Direct amount in
       mret (Some (DynMilestone.Fixed
                     (FixedPriceMilestone.new mTitle mDesc (Some payment)
                        amount)))
     else
       say [Str "Enter Hours Worked: "];;
       hours ← extract_double;
       let payment :=
         if (pc =? 1)%Z then Payment.Escrow 0%float
         else Payment.Direct 0%float in
       let hm := HourlyMilestone.new mTitle mDesc (Some payment) rate in
       try_catch_all
         (h ← value_of "hours" hours;
          r ← run_program (invoke (HourlyMilestone.setHoursWorked h) hm);
          mret (Some (DynMilestone.Hourly (snd r))))
         (say [Str ("Invalid hours input. Aborting." +:+ nl)];;
          mret None));
  match milestone with
  | None => mret tt
  | Some ms =>
      let project :=
        Project.mk pName (Some client) (Some freelancer) (Some ms)
          (Some (Logger.mk "payment_receipts.txt")) in
      run_program (invoke Project.executeProjectWorkflow project);;
      mret tt
  end.


End Interactive.

(** * Objects and predicates used to state the properties *)

(** ** The hard-coded objects of [runHardcodedDemos] *)

Definition empty_world : World := mkWorld [] [] ∅ ∅ [].

Definition fixedMilestone : FixedPriceMilestone.t :=
  FixedPriceMilestone.new "Website" "Full stack"
    (Some (Payment.Escrow 2500%float)) 2500%float.

Definition demo1 : Project.t :=
  Project.mk "E-Commerce Website"
    (Some (User.Client "John Smith" "john@company.com" "TechCorp"))
    (Some (User.Freelancer "Alice Johnson" "alice@freelance.com"
             "C++ Development" 75%float))
    (Some (DynMilestone.Fixed fixedMilestone))
    (Some (Logger.mk "payment_receipts.txt")).

(** The milestone of the second demo, as constructed (no hours yet). *)
Definition badMilestone : HourlyMilestone.t :=
  HourlyMilestone.new "Test Milestone" "Testing exceptions"
    (Some (Payment.Direct 0%float)) 50%float.

(** The third scenario of the specification: a fixed price of zero. *)
Definition zeroPriceProject : Project.t :=
  Project.mk "Zero"
    (Some (User.Client "Test Client" "test@test.com" "TestCo"))
    (Some (User.Freelancer "Test Freelancer" "test@free.com" "Testing"
             50%float))
    (Some (DynMilestone.Fixed
             (FixedPriceMilestone.new "Free" "Nothing to pay"
                (Some (Payment.Direct 0%float)) 0%float)))
    (Some (Logger.mk "payment_receipts.txt")).

(** An hourly project as [runCustomProject] builds it: the payment is
    constructed with amount [0], then the hours are set. *)
Definition hourlyProject (hours : double) (lg : option Logger.t) : Project.t :=
  Project.mk "Test Project"
    (Some (User.Client "Test Client" "test@test.com" "TestCo"))
    (Some (User.Freelancer "Test Freelancer" "test@free.com" "Testing"
             50%float))
    (Some (DynMilestone.Hourly
             (object_of (HourlyMilestone.setHoursWorked hours
                           (badMilestone, empty_world)))))
    lg.

(** A project that was wired without its client. *)
Definition noClientProject : Project.t :=
  Project.mk "Unwired" None
    (Some (User.Freelancer "Test Freelancer" "test@free.com" "Testing"
             50%float))
    (Some (DynMilestone.Fixed fixedMilestone))
    (Some (Logger.mk "payment_receipts.txt")).

(** A world in which the receipt file cannot be opened for writing. *)
Definition readonly_world : World :=
  mkWorld [] [] ∅ {["payment_receipts.txt"]} [].

(** What the [catch] clause writes for [e]. *)
Definition error_report (e : exn) : stream :=
  [Str "Error during execution: "; Str (what e); Endl].

(** ** The same project with another amount stored in its payment *)

Definition payment_with_amount (x : double) (pay : Payment.t) : Payment.t :=
  match pay with
  | Payment.Escrow _ => Payment.Escrow x
  | Payment.Direct _ => Payment.Direct x
  end.

Definition milestone_with_amount (x : double) (m : DynMilestone.t) :
    DynMilestone.t :=
  let b := DynMilestone.base m in
  DynMilestone.set_base m
    (Milestone.mk (Milestone.title b) (Milestone.description b)
       (Milestone.isCompleted b)
       (option_map (payment_with_amount x) (Milestone.paymentMethod b))).

Definition project_with_amount (x : double) (p : Project.t) : Project.t :=
  Project.mk (Project.projectName p) (Project.client p)
    (Project.freelancer p)
    (option_map (milestone_with_amount x) (Project.milestone p))
    (Project.logger p).

(** Whether the double [x] was inserted into the stream. *)
Definition prints_double (x : double) (l : stream) : bool :=
  existsb (fun i => match i with Dbl d => PrimFloat.eqb d x | _ => false end)
          l.

(** ** Frames *)

(** [console_only w w']: from [w] to [w'] nothing but [cout] changed. *)
Definition console_only (w w' : World) : Prop :=
  cerr w' = cerr w /\ files w' = files w /\
  unwritable w' = unwritable w /\ calls w' = calls w.

(** [paid_only w w']: from [w] to [w'] the payment was processed once, the
    logger was not called, and no file or error output changed. *)
Definition paid_only (w w' : World) : Prop :=
  cerr w' = cerr w /\ files w' = files w /\
  unwritable w' = unwritable w /\
  calls w' = calls w ++ [Call_processPayment].

(** ** What the milestone calls yield, whatever the world *)

Definition completes_to (m m' : DynMilestone.t) : Prop :=
  forall w, outcome_of (DynMilestone.complete (m, w)) = Normal tt /\
            object_of (DynMilestone.complete (m, w)) = m'.

Definition amount_due (m : DynMilestone.t) (a : double) : Prop :=
  forall w, DynMilestone.calculatePayment (m, w) = (Normal a, (m, w)).

Definition payment_type (pay : Payment.t) (ty : string) : Prop :=
  forall w, Payment.getPaymentType (pay, w) = (Normal ty, (pay, w)).

(** ** The seven ways through [workflow]

    [workflow_run p w r p' w']: the statements of the [try] block, started on
    project [p] in world [w], end with [r], leaving [p'] and [w']. *)
Inductive workflow_run (p : Project.t) (w : World) :
    outcome unit -> Project.t -> World -> Prop :=
| run_absent :
    Project.client p = None \/ Project.freelancer p = None \/
    Project.milestone p = None ->
    workflow_run p w (Raise NullPointerException) p w
| run_no_payment_method m w' :
    Project.client p <> None -> Project.freelancer p <> None ->
    Project.milestone p = Some m ->
    Milestone.paymentMethod (DynMilestone.base m) = None ->
    console_only w w' ->
    workflow_run p w (Crash (NullDereference ptr_paymentMethod)) p w'
| run_invalid_hours m pay w' :
    Project.client p <> None -> Project.freelancer p <> None ->
    Project.milestone p = Some m ->
    Milestone.paymentMethod (DynMilestone.base m) = Some pay ->
    (forall w0, outcome_of (DynMilestone.complete (m, w0))
                = Raise InvalidHoursException) ->
    console_only w w' ->
    workflow_run p w (Raise InvalidHoursException) p w'
| run_payment_failure m pay m' a w' :
    Project.client p <> None -> Project.freelancer p <> None ->
    Project.milestone p = Some m ->
    Milestone.paymentMethod (DynMilestone.base m) = Some pay ->
    completes_to m m' -> amount_due m' a ->
    dle a dzero = true ->
    console_only w w' ->
    workflow_run p w (Raise PaymentFailureException)
      (Project.set_milestone p m') w'
| run_no_logger m pay m' a w' :
    Project.client p <> None -> Project.freelancer p <> None ->
    Project.milestone p = Some m ->
    Milestone.paymentMethod (DynMilestone.base m) = Some pay ->
    completes_to m m' -> amount_due m' a ->
    dle a dzero = false ->
    Project.logger p = None ->
    paid_only w w' ->
    workflow_run p w (Crash (NullDereference ptr_logger))
      (Project.set_milestone p m') w'
| run_log_failure m pay m' a ty lg w' :
    Project.client p <> None -> Project.freelancer p <> None ->
    Project.milestone p = Some m ->
    Milestone.paymentMethod (DynMilestone.base m) = Some pay ->
    completes_to m m' -> amount_due m' a ->
    dle a dzero = false ->
    payment_type pay ty ->
    Project.logger p = Some lg ->
    Logger.logFileName lg ∈ unwritable w ->
    cerr w' = cerr w -> files w' = files w ->
    calls w' = calls w ++
               [Call_processPayment;
                Call_logPaymentReceipt
                  (Milestone.title (DynMilestone.base m)) a ty] ->
    workflow_run p w (Raise (runtime_error "Unable to open log file"))
      (Project.set_milestone p m') w'
| run_success m pay m' a ty lg w' :
    Project.client p <> None -> Project.freelancer p <> None ->
    Project.milestone p = Some m ->
    Milestone.paymentMethod (DynMilestone.base m) = Some pay ->
    completes_to m m' -> amount_due m' a ->
    dle a dzero = false ->
    payment_type pay ty ->
    Project.logger p = Some lg ->
    Logger.logFileName lg ∉ unwritable w ->
    cerr w' = cerr w ->
    files w' = <[Logger.logFileName lg :=
                   default [] (files w !! Logger.logFileName lg)
                   ++ Logger.receipt
                        (Milestone.title (DynMilestone.base m)) a ty]>
                 (files w) ->
    calls w' = calls w ++
               [Call_processPayment;
                Call_logPaymentReceipt
                  (Milestone.title (DynMilestone.base m)) a ty] ->
    workflow_run p w (Normal tt) (Project.set_milestone p m') w'.

(** ** Postconditions

    [post Q x]: the run [x] of a member function ends in an outcome, an
    object and a world that satisfy [Q]. *)
Definition post {A T} (Q : outcome A -> T -> World -> Prop)
    (x : outcome A * (T * World)) : Prop :=
  Q (outcome_of x) (object_of x) (world_of x).

(** ** Runs that differ in the stored amount only

    [notice pay]: the two lines [processPayment] prints for [pay]. *)
Definition notice (pay : Payment.t) : stream :=
  match pay with
  | Payment.Escrow amount =>
      [Str "Processing escrow payment of $"; Dbl amount; Endl;
       Str "Funds held in escrow until milestone completion..."; Endl]
  | Payment.Direct amount =>
      [Str "Processing direct payment of $"; Dbl amount; Endl;
       Str "Payment transferred immediately..."; Endl]
  end.

(** [same_but_notices x c1 c2]: the console outputs [c1] and [c2] are the
    same, item by item, except that where [c1] has the notice of a payment,
    [c2] has the notice of that payment with [x] as its stored amount. *)
Inductive same_but_notices (x : double) : stream -> stream -> Prop :=
| sbn_nil : same_but_notices x [] []
| sbn_item i c1 c2 :
    same_but_notices x c1 c2 ->
    same_but_notices x (c1 ++ [i]) (c2 ++ [i])
| sbn_notice pay c1 c2 :
    same_but_notices x c1 c2 ->
    same_but_notices x (c1 ++ notice pay)
      (c2 ++ notice (payment_with_amount x pay)).

(** Two worlds that agree on everything but the amounts in the notices. *)
Definition agree (x : double) (w1 w2 : World) : Prop :=
  cerr w2 = cerr w1 /\ files w2 = files w1 /\
  unwritable w2 = unwritable w1 /\ calls w2 = calls w1 /\
  same_but_notices x (cout w1) (cout w2).

(** Two runs that end alike, on objects related by [g], in worlds that
    agree. *)
Definition sim {A T} (x : double) (g : T -> T)
    (r1 r2 : outcome A * (T * World)) : Prop :=
  outcome_of r2 = outcome_of r1 /\
  object_of r2 = g (object_of r1) /\
  agree x (world_of r1) (world_of r2).

(** [msim x g f1 f2]: started on objects related by [g] in worlds that
    agree, [f1] and [f2] run alike. *)
Definition msim {A T} (x : double) (g : T -> T) (f1 f2 : Method T A) : Prop :=
  forall o w1 w2, agree x w1 w2 -> sim x g (f1 (o, w1)) (f2 (g o, w2)).

(** ** Tactics *)

(** Unfold the monad and compute, keeping comparisons of doubles folded. *)
Ltac run :=
  repeat (cbn -[dle dlt dmul dzero PrimFloat.leb PrimFloat.ltb PrimFloat.mul]
          in *;
          unfold outcome_of, object_of, world_of, mbind, mret, M_bind, M_ret,
            this, assign, effect, world, to_cout, to_cerr, throw in *).

(** * Further objects and predicates *)

(** ** Call sequences on a milestone

    What a client holding a [Milestone*] can call, in any order.
    [setHoursWorked] is a member of [HourlyMilestone] only: on a fixed-price
    milestone the call cannot be written, and [make_call] leaves it out. *)
Inductive milestone_call : Type :=
| call_complete
| call_calculatePayment
| call_displayMilestone
| call_getTitle
| call_setHoursWorked (hours : double).

Definition make_call (c : milestone_call) : Method DynMilestone.t unit :=
  match c with
  | call_complete => DynMilestone.complete
  | call_calculatePayment => _ ← DynMilestone.calculatePayment; mret tt
  | call_displayMilestone => DynMilestone.displayMilestone
  | call_getTitle => _ ← DynMilestone.getTitle; mret tt
  | call_setHoursWorked hours =>
      DynMilestone.dispatch (mret tt) (HourlyMilestone.setHoursWorked hours)
  end.

(** The calls in order; a caller that catches an exception goes on with the
    next call, a crash ends the sequence. *)
Fixpoint make_calls (cs : list milestone_call) (s : DynMilestone.t * World) :
    DynMilestone.t * World :=
  match cs with
  | [] => s
  | c :: cs' =>
      match make_call c s with
      | (Crash _, s') => s'
      | (_, s') => make_calls cs' s'
      end
  end.

(** What the constructor fixed: title, description, payment object, and the
    fixed amount or the hourly rate. *)
Definition configuration (m : DynMilestone.t) :
    string * string * option Payment.t * (double + double) :=
  (Milestone.title (DynMilestone.base m),
   Milestone.description (DynMilestone.base m),
   Milestone.paymentMethod (DynMilestone.base m),
   match m with
   | DynMilestone.Fixed f => inl (FixedPriceMilestone.fixedAmount f)
   | DynMilestone.Hourly h => inr (HourlyMilestone.hourlyRate h)
   end).

(** The label [getPaymentType] returns for a payment. *)
Definition label_of (pay : Payment.t) : string :=
  match pay with
  | Payment.Escrow _ => "Escrow"
  | Payment.Direct _ => "Direct"
  end.

(** [appended path l w w']: [w'] has [l] at the end of file [path], which is
    created when it was missing, and every other file as in [w]. *)
Definition appended (path : string) (l : stream) (w w' : World) : Prop :=
  files w' !! path = Some (default [] (files w !! path) ++ l) /\
  forall other, other <> path -> files w' !! other = files w !! other.

(** The milestone with its completed flag set. *)
Definition completed (m : DynMilestone.t) : DynMilestone.t :=
  DynMilestone.set_base m
    (Milestone.set_isCompleted true (DynMilestone.base m)).

(** A member function that leaves the set of unopenable paths alone. *)
Definition keeps_unwritable {T A} (f : Method T A) : Prop :=
  forall s, unwritable (world_of (f s)) = unwritable (snd s).

(** The first demo's project and world after one run of the workflow. *)
Definition demo1_after : Project.t * World :=
  Eval vm_compute in snd (Project.workflow (demo1, empty_world)).

(** ** What the user typed

    The values the input operations of [runCustomProject] deliver, in the
    order in which the function performs them.  The last number is the fixed
    price or the hours, by the type chosen. *)
Record Answers : Type := mkAnswers {
  cName : string; cEmail : string; cCompany : string;
  fName : string; fEmail : string; fSkill : string;
  fRate : option double;
  pName : string; mTitle : string; mDesc : string;
  typeChoice : option Z;
  payChoice : option Z;
  number : option double
}.

Definition custom_answers `{ConsoleInput} (c : Cin) : Answers :=
  let c := cin_clear_ignore c in
  let '(cName, c) := cin_getline c in
  let '(cEmail, c) := cin_getline c in
  let '(cCompany, c) := cin_getline c in
  let '(fName, c) := cin_getline c in
  let '(fEmail, c) := cin_getline c in
  let '(fSkill, c) := cin_getline c in
  let '(fRate, c) := cin_double c in
  let c := cin_clear_ignore c in
  let '(pName, c) := cin_getline c in
  let '(mTitle, c) := cin_getline c in
  let '(mDesc, c) := cin_getline c in
  let '(typeChoice, c) := cin_int c in
  let '(payChoice, c) := cin_int c in
  let '(number, c) := cin_double c in
  mkAnswers cName cEmail cCompany fName fEmail fSkill fRate pName mTitle mDesc
    typeChoice payChoice number.

(** The payment object [runCustomProject] creates for choice [pc]. *)
Definition chosen_payment (pc : Z) (amount : double) : Payment.t :=
  if (pc =? 1)%Z then Payment.Escrow amount else Payment.Direct amount.

(** [prints l c]: the items [l] occur, in a row, in the output [c]. *)
Definition prints (l c : stream) : Prop :=
  exists before after, c = before ++ l ++ after.

(** [reported e w w']: from [w] to [w'] no payment was processed, the logger
    was not called, no file changed, and [executeProjectWorkflow] reported
    [e] on [cerr]. *)
Definition reported (e : exn) (w w' : World) : Prop :=
  calls w' = calls w /\ files w' = files w /\
  cerr w' = cerr w ++ error_report e.

(** [receipt_logged path title a ty w w']: from [w] to [w'] the payment was
    processed once and the logger called once, with [title], [a] and [ty].
    When [path] can be opened the receipt is at its end and [cerr] is as
    before; when it cannot, no file changed and the logger's error is
    reported on [cerr]. *)
Definition receipt_logged (path title : string) (a : double) (ty : string)
    (w w' : World) : Prop :=
  calls w' = calls w ++ [Call_processPayment;
                         Call_logPaymentReceipt title a ty] /\
  (path ∉ unwritable w ->
   appended path (Logger.receipt title a ty) w w' /\ cerr w' = cerr w) /\
  (path ∈ unwritable w ->
   files w' = files w /\
   cerr w' = cerr w ++ error_report (runtime_error "Unable to open log file")).

(** A scripted keyboard, for examples: the answers still to come.  An
    operation that does not find its kind of answer next consumes nothing and
    delivers the empty line, or no value. *)
Inductive answer : Type :=
| Line (s : string)
| Number (d : double)
| Choice (z : Z).

Definition script : ConsoleInput := {|
  Cin := list answer;
  cin_getline c :=
    match c with Line s :: c' => (s, c') | _ => (String.EmptyString, c) end;
  cin_double c :=
    match c with Number d :: c' => (Some d, c') | _ => (None, c) end;
  cin_int c :=
    match c with Choice z :: c' => (Some z, c') | _ => (None, c) end;
  cin_clear_ignore c := c
|}.


(** The same with -5 hours. *)
Definition typed_negative : list answer :=
  [Line "Test Client"; Line "test@test.com"; Line "TestCo";
   Line "Test Freelancer"; Line "test@free.com"; Line "Testing";
   Number 50%float;
   Line "Test Project"; Line "Test Milestone"; Line "Testing";
   Choice 2; Choice 1; Number (-5)%float].

(** A fixed price of 2500, paid directly. *)
Definition typed_fixed : list answer :=
  [Line "Test Client"; Line "test@test.com"; Line "TestCo";
   Line "Test Freelancer"; Line "test@free.com"; Line "Testing";
   Number 50%float;
   Line "Test Project"; Line "Website"; Line "Full stack";
   Choice 1; Choice 2; Number 2500%float].

(** * Properties *)

(** ** Comparisons of doubles with zero *)

Lemma Prim2SF_dzero : Prim2SF dzero = S754_zero false.
Proof. reflexivity. Qed.

(** [0 < x] excludes [x <= 0] (so does a NaN, which fails every
    comparison). *)
Lemma dlt_zero_not_dle (x : double) :
  dlt dzero x = true -> dle x dzero = false.
Proof.
  unfold dlt, dle. rewrite ltb_spec, leb_spec, Prim2SF_dzero.
  destruct (Prim2SF x) as [s|s| |s m e]; try destruct s; cbn; congruence.
Qed.

(** [0 <= x] excludes [x < 0]. *)
Lemma dle_zero_not_dlt (x : double) :
  dle dzero x = true -> dlt x dzero = false.
Proof.
  unfold dlt, dle. rewrite ltb_spec, leb_spec, Prim2SF_dzero.
  destruct (Prim2SF x) as [s|s| |s m e]; try destruct s; cbn; congruence.
Qed.

(** ** HourlyMilestone *)

(** C3. [HourlyMilestone::complete] throws [InvalidHoursException] exactly
    when [hoursWorked <= 0]; a failed call changes neither the milestone (it
    stays pending if it was) nor the world; any other call, in particular
    one with [hoursWorked > 0], returns normally with the milestone
    completed and its hours and rate as they were. *)
Theorem hourly_complete_spec (m : HourlyMilestone.t) (w : World) :
  let r := HourlyMilestone.complete (m, w) in
  (outcome_of r = Raise InvalidHoursException <->
   dle (HourlyMilestone.hoursWorked m) dzero = true) /\
  (dle (HourlyMilestone.hoursWorked m) dzero = true ->
   object_of r = m /\ world_of r = w /\
   Milestone.isCompleted (HourlyMilestone.base (object_of r))
   = Milestone.isCompleted (HourlyMilestone.base m)) /\
  (dle (HourlyMilestone.hoursWorked m) dzero = false ->
   outcome_of r = Normal tt /\
   Milestone.isCompleted (HourlyMilestone.base (object_of r)) = true) /\
  (dlt dzero (HourlyMilestone.hoursWorked m) = true ->
   outcome_of r = Normal tt /\
   Milestone.isCompleted (HourlyMilestone.base (object_of r)) = true /\
   HourlyMilestone.hoursWorked (object_of r) = HourlyMilestone.hoursWorked m /\
   HourlyMilestone.hourlyRate (object_of r) = HourlyMilestone.hourlyRate m).
Proof.
  intros r. subst r. unfold HourlyMilestone.complete.
  pose proof (dlt_zero_not_dle (HourlyMilestone.hoursWorked m)) as Hpos.
  destruct m as [[ti de co pm] h rt]. run.
  destruct (dle h dzero) eqn:Hle; run.
  - intuition (discriminate || auto).
  - intuition (discriminate || auto).
Qed.

Lemma hourly_complete_witness :
  outcome_of (HourlyMilestone.complete (badMilestone, empty_world))
  = Raise InvalidHoursException /\
  Milestone.isCompleted
    (HourlyMilestone.base
       (object_of (HourlyMilestone.complete (badMilestone, empty_world))))
  = false.
Proof.
  destruct (hourly_complete_spec badMilestone empty_world) as (Hiff & Hsame & _).
  split.
  - apply Hiff. reflexivity.
  - destruct Hsame as (_ & _ & ->); reflexivity.
Defined.

(** C4. [HourlyMilestone::setHoursWorked(h)] throws
    [InvalidHoursException] exactly when [h < 0] and then leaves the
    milestone, its stored hours included, as it was; otherwise, in particular
    for every [h >= 0] and for [h = 0], it returns normally and the stored
    hours are [h], the other members unchanged. *)
Theorem setHoursWorked_spec (m : HourlyMilestone.t) (h : double) (w : World) :
  let r := HourlyMilestone.setHoursWorked h (m, w) in
  (outcome_of r = Raise InvalidHoursException <-> dlt h dzero = true) /\
  (dlt h dzero = true ->
   object_of r = m /\
   HourlyMilestone.hoursWorked (object_of r) = HourlyMilestone.hoursWorked m) /\
  (dlt h dzero = false ->
   outcome_of r = Normal tt /\
   object_of r
   = HourlyMilestone.mk (HourlyMilestone.base m) h
       (HourlyMilestone.hourlyRate m)) /\
  (dle dzero h = true ->
   outcome_of r = Normal tt /\ HourlyMilestone.hoursWorked (object_of r) = h) /\
  outcome_of (HourlyMilestone.setHoursWorked dzero (m, w)) = Normal tt /\
  world_of r = w.
Proof.
  intros r. subst r. unfold HourlyMilestone.setHoursWorked.
  pose proof (dle_zero_not_dlt h) as Hnonneg.
  assert (dlt dzero dzero = false) as Hzero by reflexivity.
  run. rewrite Hzero.
  destruct (dlt h dzero) eqn:Hlt; run; intuition (discriminate || auto).
Qed.

Lemma setHoursWorked_witness :
  outcome_of (HourlyMilestone.setHoursWorked (-5)%float
                (badMilestone, empty_world))
  = Raise InvalidHoursException /\
  HourlyMilestone.hoursWorked
    (object_of (HourlyMilestone.setHoursWorked (-5)%float
                  (badMilestone, empty_world)))
  = dzero /\
  HourlyMilestone.hoursWorked
    (object_of (HourlyMilestone.setHoursWorked 8%float
                  (badMilestone, empty_world)))
  = 8%float.
Proof.
  destruct (setHoursWorked_spec badMilestone (-5)%float empty_world)
    as (Hiff & Hkeep & _).
  destruct (setHoursWorked_spec badMilestone 8%float empty_world)
    as (_ & _ & _ & Hstore & _).
  split; [apply Hiff; reflexivity|].
  split; [destruct Hkeep as [_ ->]; reflexivity|].
  apply Hstore. reflexivity.
Defined.

(** C7. Once [h > 0] hours are set on an hourly milestone of rate [r],
    [setHoursWorked] and [complete] both return normally and
    [calculatePayment] then returns the double product [h * r]. *)
Theorem hourly_payment_after_complete (m : HourlyMilestone.t) (h : double)
    (w : World) :
  dlt dzero h = true ->
  let r1 := HourlyMilestone.setHoursWorked h (m, w) in
  let r2 := HourlyMilestone.complete (snd r1) in
  let r3 := HourlyMilestone.calculatePayment (snd r2) in
  outcome_of r1 = Normal tt /\
  outcome_of r2 = Normal tt /\
  outcome_of r3 = Normal (dmul h (HourlyMilestone.hourlyRate m)).
Proof.
  intros Hpos r1 r2 r3. subst r1 r2 r3.
  unfold HourlyMilestone.setHoursWorked, HourlyMilestone.complete,
    HourlyMilestone.calculatePayment.
  assert (dlt h dzero = false) as Hlt.
  { destruct (dlt h dzero) eqn:E; [|reflexivity].
    revert Hpos E. unfold dlt. rewrite !ltb_spec, Prim2SF_dzero.
    destruct (Prim2SF h) as [s|s| |s k e]; try destruct s; cbn; congruence. }
  pose proof (dlt_zero_not_dle h Hpos) as Hle.
  destruct m as [[ti de co pm] h0 rt]. run.
  rewrite Hlt. run. rewrite Hle. run. auto.
Qed.

Lemma hourly_payment_witness :
  outcome_of
    (HourlyMilestone.calculatePayment
       (snd (HourlyMilestone.complete
               (snd (HourlyMilestone.setHoursWorked 8%float
                       (badMilestone, empty_world))))))
  = Normal 400%float.
Proof.
  apply (hourly_payment_after_complete badMilestone 8%float empty_world).
  reflexivity.
Defined.

(** ** FixedPriceMilestone *)

(** C5. On a fixed-price milestone of amount [A] that is still pending,
    [calculatePayment] returns [0]; after [complete] it returns [A].
    [complete] returns normally from every state and leaves the milestone
    completed.  (Nothing here needs [A > 0].) *)
Theorem fixed_payment_before_and_after (m : FixedPriceMilestone.t) (w : World) :
  let r := FixedPriceMilestone.complete (m, w) in
  (Milestone.isCompleted (FixedPriceMilestone.base m) = false ->
   outcome_of (FixedPriceMilestone.calculatePayment (m, w)) = Normal dzero) /\
  outcome_of r = Normal tt /\
  Milestone.isCompleted (FixedPriceMilestone.base (object_of r)) = true /\
  FixedPriceMilestone.fixedAmount (object_of r)
  = FixedPriceMilestone.fixedAmount m /\
  outcome_of (FixedPriceMilestone.calculatePayment (snd r))
  = Normal (FixedPriceMilestone.fixedAmount m).
Proof.
  intros r. subst r.
  unfold FixedPriceMilestone.complete, FixedPriceMilestone.calculatePayment.
  destruct m as [[ti de co pm] A]. run.
  intuition auto. subst co. reflexivity.
Qed.

Lemma fixed_payment_witness :
  dlt dzero (FixedPriceMilestone.fixedAmount fixedMilestone) = true /\
  outcome_of (FixedPriceMilestone.calculatePayment (fixedMilestone, empty_world))
  = Normal dzero /\
  outcome_of
    (FixedPriceMilestone.calculatePayment
       (snd (FixedPriceMilestone.complete (fixedMilestone, empty_world))))
  = Normal 2500%float.
Proof.
  destruct (fixed_payment_before_and_after fixedMilestone empty_world)
    as (Hbefore & _ & _ & _ & Hafter).
  split; [reflexivity|]. split; [apply Hbefore; reflexivity|exact Hafter].
Defined.

(** C8. A second [complete] on a fixed-price milestone is accepted: it
    returns normally, leaves the object as the first call left it, and
    [calculatePayment] returns the configured amount after the first call
    and still after the second. *)
Theorem fixed_complete_twice (m : FixedPriceMilestone.t) (w : World) :
  let r1 := FixedPriceMilestone.complete (m, w) in
  let r2 := FixedPriceMilestone.complete (snd r1) in
  outcome_of r1 = Normal tt /\
  outcome_of r2 = Normal tt /\
  object_of r2 = object_of r1 /\
  outcome_of (FixedPriceMilestone.calculatePayment (snd r1))
  = Normal (FixedPriceMilestone.fixedAmount m) /\
  outcome_of (FixedPriceMilestone.calculatePayment (snd r2))
  = Normal (FixedPriceMilestone.fixedAmount m).
Proof.
  intros r1 r2. subst r1 r2.
  unfold FixedPriceMilestone.complete, FixedPriceMilestone.calculatePayment.
  destruct m as [[ti de co pm] A]. run. auto.
Qed.

(** ** Both variants, through the base-class pointer *)

(** C6. For a milestone of either class, [calculatePayment] returns
    normally, changes neither the object (title, description, completed
    flag, payment, amount or hours and rate) nor the world, and its value is
    [0] whenever the milestone is not completed. *)
Theorem calculatePayment_pure (m : DynMilestone.t) (w : World) :
  let r := DynMilestone.calculatePayment (m, w) in
  snd r = (m, w) /\
  (exists a, outcome_of r = Normal a) /\
  (Milestone.isCompleted (DynMilestone.base m) = false ->
   outcome_of r = Normal dzero).
Proof.
  intros r. subst r.
  unfold DynMilestone.calculatePayment, DynMilestone.dispatch,
    FixedPriceMilestone.calculatePayment, HourlyMilestone.calculatePayment.
  destruct m as [[[ti de co pm] A]|[[ti de co pm] h rt]]; run;
    destruct co; run; intuition (discriminate || eauto).
Qed.

Lemma calculatePayment_pure_witness :
  outcome_of (DynMilestone.calculatePayment
                (DynMilestone.Hourly badMilestone, empty_world))
  = Normal dzero /\
  outcome_of (DynMilestone.calculatePayment
                (DynMilestone.Fixed fixedMilestone, empty_world))
  = Normal dzero.
Proof.
  split.
  - apply (calculatePayment_pure (DynMilestone.Hourly badMilestone)
             empty_world). reflexivity.
  - apply (calculatePayment_pure (DynMilestone.Fixed fixedMilestone)
             empty_world). reflexivity.
Defined.

(** ** How each call of the workflow acts on the world *)

Lemma console_only_refl (w : World) : console_only w w.
Proof. repeat split. Qed.

Lemma console_only_trans (w1 w2 w3 : World) :
  console_only w1 w2 -> console_only w2 w3 -> console_only w1 w3.
Proof.
  unfold console_only. intros (-> & -> & -> & ->) (-> & -> & -> & ->). auto.
Qed.

Lemma console_only_put_cout (l : stream) (w : World) :
  console_only w (put_cout l w).
Proof. repeat split. Qed.

Lemma arrow_run {T U A} name (get : T -> option U) set (f : Method U A)
    (o : T) (w : World) (u : U) :
  get o = Some u ->
  arrow name get set f (o, w) =
  (outcome_of (f (u, w)), (set o (object_of (f (u, w))), world_of (f (u, w)))).
Proof.
  intros H. unfold arrow, outcome_of, object_of, world_of. cbn. rewrite H.
  destruct (f (u, w)) as [r [u' w']]. reflexivity.
Qed.

Lemma arrow_null {T U A} name (get : T -> option U) set (f : Method U A)
    (o : T) (w : World) :
  get o = None ->
  arrow name get set f (o, w) = (Crash (NullDereference name), (o, w)).
Proof. intros H. unfold arrow. cbn. rewrite H. reflexivity. Qed.

Lemma displayInfo_run (u : User.t) (w : World) :
  exists w', User.displayInfo (u, w) = (Normal tt, (u, w')) /\
             console_only w w'.
Proof. destruct u; eexists; (split; [reflexivity|]); repeat split. Qed.

(** [displayMilestone] stops at a null payment method, having printed the
    first lines. *)
Lemma displayMilestone_run (m : DynMilestone.t) (w : World) :
  exists w',
    console_only w w' /\
    DynMilestone.displayMilestone (m, w) =
    (match Milestone.paymentMethod (DynMilestone.base m) with
     | Some _ => Normal tt
     | None => Crash (NullDereference ptr_paymentMethod)
     end, (m, w')).
Proof.
  destruct m as [[[ti de co [[a|a]|]] A]|[[ti de co [[a|a]|]] h rt]];
    eexists; (split; [|reflexivity]); repeat split.
Qed.

(** Whether [complete] succeeds, and the object it leaves, do not depend on
    the world; the world only gains console output. *)
Lemma complete_run (m : DynMilestone.t) (w w0 : World) :
  exists w',
    console_only w w' /\
    DynMilestone.complete (m, w) =
    (outcome_of (DynMilestone.complete (m, w0)),
     (object_of (DynMilestone.complete (m, w0)), w')).
Proof.
  destruct m as [[[ti de co pm] A]|[[ti de co pm] h rt]].
  - eexists; split; [|reflexivity]. repeat split.
  - unfold DynMilestone.complete, DynMilestone.dispatch,
      HourlyMilestone.complete. run.
    destruct (dle h dzero); run; eexists; (split; [|reflexivity]);
      repeat split.
Qed.

Lemma complete_outcome (m : DynMilestone.t) (w : World) :
  (outcome_of (DynMilestone.complete (m, w)) = Normal tt /\
   Milestone.isCompleted
     (DynMilestone.base (object_of (DynMilestone.complete (m, w)))) = true)
  \/
  (outcome_of (DynMilestone.complete (m, w)) = Raise InvalidHoursException /\
   object_of (DynMilestone.complete (m, w)) = m).
Proof.
  destruct m as [[[ti de co pm] A]|[[ti de co pm] h rt]].
  - left. split; reflexivity.
  - unfold DynMilestone.complete, DynMilestone.dispatch,
      HourlyMilestone.complete. run.
    destruct (dle h dzero); run; auto.
Qed.

(** [complete] touches neither the title nor the payment method. *)
Lemma complete_keeps (m : DynMilestone.t) (w : World) :
  let m' := object_of (DynMilestone.complete (m, w)) in
  Milestone.title (DynMilestone.base m') = Milestone.title (DynMilestone.base m)
  /\ Milestone.paymentMethod (DynMilestone.base m')
     = Milestone.paymentMethod (DynMilestone.base m).
Proof.
  destruct m as [[[ti de co pm] A]|[[ti de co pm] h rt]].
  - split; reflexivity.
  - unfold DynMilestone.complete, DynMilestone.dispatch,
      HourlyMilestone.complete. run.
    destruct (dle h dzero); run; auto.
Qed.

Lemma calculatePayment_run (m : DynMilestone.t) (w w0 : World) :
  DynMilestone.calculatePayment (m, w) =
  (outcome_of (DynMilestone.calculatePayment (m, w0)), (m, w)) /\
  exists a, outcome_of (DynMilestone.calculatePayment (m, w0)) = Normal a.
Proof.
  destruct m as [[[ti de [|] pm] A]|[[ti de [|] pm] h rt]];
    (split; [reflexivity|eexists; reflexivity]).
Qed.

Lemma processPayment_run (m : DynMilestone.t) (pay : Payment.t) (w : World) :
  Milestone.paymentMethod (DynMilestone.base m) = Some pay ->
  exists w',
    DynMilestone.paymentMethod_arrow Payment.processPayment (m, w)
    = (Normal tt, (m, w')) /\
    cerr w' = cerr w /\ files w' = files w /\
    unwritable w' = unwritable w /\
    calls w' = calls w ++ [Call_processPayment].
Proof.
  destruct m as [[[ti de co pm] A]|[[ti de co pm] h rt]]; cbn;
    intros ->; destruct pay; eexists; (split; [reflexivity|]);
    repeat split.
Qed.

Lemma getTitle_run (m : DynMilestone.t) (w : World) :
  DynMilestone.getTitle (m, w)
  = (Normal (Milestone.title (DynMilestone.base m)), (m, w)).
Proof. destruct m as [[[ti de co pm] A]|[[ti de co pm] h rt]]; reflexivity. Qed.

Lemma getPaymentType_run (m : DynMilestone.t) (pay : Payment.t) (w w0 : World) :
  Milestone.paymentMethod (DynMilestone.base m) = Some pay ->
  DynMilestone.paymentMethod_arrow Payment.getPaymentType (m, w)
  = (outcome_of (Payment.getPaymentType (pay, w0)), (m, w)) /\
  exists ty, outcome_of (Payment.getPaymentType (pay, w0)) = Normal ty.
Proof.
  destruct m as [[[ti de co pm] A]|[[ti de co pm] h rt]]; cbn;
    intros ->; destruct pay; (split; [reflexivity|eexists; reflexivity]).
Qed.

(** One call of the logger: the call is recorded; then either the file
    cannot be opened and nothing else happens, or the receipt goes to the
    end of the file. *)
Lemma logPaymentReceipt_run (lg : Logger.t) (title : string) (a : double)
    (ty : string) (w : World) :
  exists w',
    (if bool_decide (Logger.logFileName lg ∈ unwritable w)
     then Logger.logPaymentReceipt title a ty (lg, w)
          = (Raise (runtime_error "Unable to open log file"), (lg, w')) /\
          files w' = files w
     else Logger.logPaymentReceipt title a ty (lg, w) = (Normal tt, (lg, w')) /\
          files w' = <[Logger.logFileName lg :=
                         default [] (files w !! Logger.logFileName lg)
                         ++ Logger.receipt title a ty]> (files w)) /\
    cerr w' = cerr w /\ unwritable w' = unwritable w /\
    calls w' = calls w ++ [Call_logPaymentReceipt title a ty].
Proof.
  destruct lg as [path]. unfold Logger.logPaymentReceipt. run.
  destruct (bool_decide (path ∈ unwritable w)) eqn:E; run.
  - eexists. split; [split; reflexivity|]. repeat split.
  - eexists. split; [split; [reflexivity|]|repeat split].
    cbn. rewrite !lookup_insert_eq, !insert_insert_eq. cbn.
    rewrite <- !app_assoc. reflexivity.
Qed.

(** ** Every run of the [try] block is one of the seven *)

Lemma completes_to_intro (m : DynMilestone.t) (w : World) :
  outcome_of (DynMilestone.complete (m, w)) = Normal tt ->
  completes_to m (object_of (DynMilestone.complete (m, w))).
Proof.
  intros H w0. destruct (complete_run m w0 w) as (w' & _ & E).
  rewrite E. cbn. auto.
Qed.

Lemma amount_due_intro (m : DynMilestone.t) (w : World) (a : double) :
  outcome_of (DynMilestone.calculatePayment (m, w)) = Normal a ->
  amount_due m a.
Proof.
  intros H w0. destruct (calculatePayment_run m w0 w) as [E _].
  rewrite E, H. reflexivity.
Qed.

Lemma payment_type_intro (pay : Payment.t) :
  exists ty, payment_type pay ty.
Proof. destruct pay; eexists; intros w; reflexivity. Qed.

Lemma post_bind {A B T} (f : Method T A) (k : A -> Method T B)
    (s : T * World) (Q : outcome B -> T -> World -> Prop) :
  post (fun r o w =>
          match r with
          | Normal a => post Q (k a (o, w))
          | Raise e => Q (Raise e) o w
          | Crash c => Q (Crash c) o w
          end) (f s) ->
  post Q ((f ≫= k) s).
Proof.
  unfold post, mbind, M_bind.
  destruct (f s) as [[a|e|c] [o w]]; cbn; auto.
Qed.

Lemma post_ret {A T} (a : A) (o : T) (w : World) Q :
  Q (Normal a) o w -> post Q ((mret a : Method T A) (o, w)).
Proof. auto. Qed.

Lemma post_throw {A T} (e : exn) (o : T) (w : World)
    (Q : outcome A -> T -> World -> Prop) :
  Q (Raise e) o w -> post Q (throw e (o, w)).
Proof. auto. Qed.

Lemma post_this {T} (o : T) (w : World) Q :
  Q (Normal o) o w -> post Q (this (o, w)).
Proof. auto. Qed.

Lemma post_to_cout {T} (l : stream) (o : T) (w : World) Q :
  (forall w', console_only w w' -> Q (Normal tt) o w') ->
  post Q (to_cout l (o, w)).
Proof. intros H. apply H. apply console_only_put_cout. Qed.

Lemma post_arrow {T U A} name (get : T -> option U) set (f : Method U A)
    (o : T) (w : World) (u : U) Q :
  get o = Some u ->
  post (fun r u' w' => Q r (set o u') w') (f (u, w)) ->
  post Q (arrow name get set f (o, w)).
Proof. intros H. rewrite (arrow_run _ _ _ _ _ _ _ H). auto. Qed.

Lemma post_arrow_null {T U A} name (get : T -> option U) set
    (f : Method U A) (o : T) (w : World)
    (Q : outcome A -> T -> World -> Prop) :
  get o = None ->
  Q (Crash (NullDereference name)) o w ->
  post Q (arrow name get set f (o, w)).
Proof. intros H. rewrite (arrow_null _ _ _ _ _ _ H). auto. Qed.

Lemma post_displayInfo (u : User.t) (w : World) Q :
  (forall w', console_only w w' -> Q (Normal tt) u w') ->
  post Q (User.displayInfo (u, w)).
Proof.
  intros H. destruct (displayInfo_run u w) as (w' & -> & F). apply H, F.
Qed.

Lemma post_displayMilestone (m : DynMilestone.t) (w : World) Q :
  (forall w', console_only w w' ->
     Q (match Milestone.paymentMethod (DynMilestone.base m) with
        | Some _ => Normal tt
        | None => Crash (NullDereference ptr_paymentMethod)
        end) m w') ->
  post Q (DynMilestone.displayMilestone (m, w)).
Proof.
  intros H. destruct (displayMilestone_run m w) as (w' & F & ->). apply H, F.
Qed.

Lemma post_complete (m : DynMilestone.t) (w : World) Q :
  (forall m' w', console_only w w' -> completes_to m m' ->
     Q (Normal tt) m' w') ->
  (forall w', console_only w w' ->
     (forall w0, outcome_of (DynMilestone.complete (m, w0))
                 = Raise InvalidHoursException) ->
     Q (Raise InvalidHoursException) m w') ->
  post Q (DynMilestone.complete (m, w)).
Proof.
  intros Hok Hfail.
  destruct (complete_run m w w) as (w' & F & E).
  destruct (complete_outcome m w) as [[Ho _]|[Ho Hm]].
  - rewrite E, Ho. apply Hok; [exact F|]. apply completes_to_intro, Ho.
  - rewrite E, Ho, Hm. apply Hfail; [exact F|]. intros w0.
    destruct (complete_run m w0 w) as (w1 & _ & E1). rewrite E1. exact Ho.
Qed.

Lemma post_calculatePayment (m : DynMilestone.t) (w : World) Q :
  (forall a, amount_due m a -> Q (Normal a) m w) ->
  post Q (DynMilestone.calculatePayment (m, w)).
Proof.
  intros H. destruct (calculatePayment_run m w w) as [E [a Ha]].
  rewrite E, Ha. apply H. apply (amount_due_intro m w), Ha.
Qed.

Lemma post_processPayment (m : DynMilestone.t) (pay : Payment.t)
    (w : World) Q :
  Milestone.paymentMethod (DynMilestone.base m) = Some pay ->
  (forall w', paid_only w w' -> Q (Normal tt) m w') ->
  post Q (DynMilestone.paymentMethod_arrow Payment.processPayment (m, w)).
Proof.
  intros Hpay H. destruct (processPayment_run m pay w Hpay) as (w' & -> & F).
  apply H, F.
Qed.

Lemma post_getTitle (m : DynMilestone.t) (w : World) Q :
  Q (Normal (Milestone.title (DynMilestone.base m))) m w ->
  post Q (DynMilestone.getTitle (m, w)).
Proof. rewrite getTitle_run. auto. Qed.

Lemma post_getPaymentType (m : DynMilestone.t) (pay : Payment.t)
    (w : World) Q :
  Milestone.paymentMethod (DynMilestone.base m) = Some pay ->
  (forall ty, payment_type pay ty -> Q (Normal ty) m w) ->
  post Q (DynMilestone.paymentMethod_arrow Payment.getPaymentType (m, w)).
Proof.
  intros Hpay H. destruct (payment_type_intro pay) as [ty Hty].
  destruct (getPaymentType_run m pay w w Hpay) as [-> _].
  rewrite (Hty w). apply H, Hty.
Qed.

Lemma post_logPaymentReceipt (lg : Logger.t) (title : string) (a : double)
    (ty : string) (w : World) Q :
  (forall w', Logger.logFileName lg ∈ unwritable w ->
     cerr w' = cerr w -> files w' = files w ->
     calls w' = calls w ++ [Call_logPaymentReceipt title a ty] ->
     Q (Raise (runtime_error "Unable to open log file")) lg w') ->
  (forall w', Logger.logFileName lg ∉ unwritable w ->
     cerr w' = cerr w ->
     files w' = <[Logger.logFileName lg :=
                    default [] (files w !! Logger.logFileName lg)
                    ++ Logger.receipt title a ty]> (files w) ->
     calls w' = calls w ++ [Call_logPaymentReceipt title a ty] ->
     Q (Normal tt) lg w') ->
  post Q (Logger.logPaymentReceipt title a ty (lg, w)).
Proof.
  intros Hfail Hok.
  destruct (logPaymentReceipt_run lg title a ty w) as (w' & H & Hc & _ & Hk).
  destruct (bool_decide (Logger.logFileName lg ∈ unwritable w)) eqn:E.
  - destruct H as [-> Hf]. apply bool_decide_eq_true in E. apply Hfail; auto.
  - destruct H as [-> Hf]. apply bool_decide_eq_false in E. apply Hok; auto.
Qed.

Lemma completes_to_keeps (m m' : DynMilestone.t) :
  completes_to m m' ->
  Milestone.title (DynMilestone.base m') = Milestone.title (DynMilestone.base m)
  /\ Milestone.paymentMethod (DynMilestone.base m')
     = Milestone.paymentMethod (DynMilestone.base m).
Proof.
  intros H. destruct (H empty_world) as [_ <-]. apply complete_keeps.
Qed.

Ltac frame F :=
  let w' := fresh "w" in let F' := fresh "F" in
  intros w' F'; apply (console_only_trans _ _ _ F) in F'; clear F;
  rename F' into F; cbv beta iota.

Ltac cout_step F := apply post_bind, post_to_cout; frame F.

Lemma workflow_run_sound (p : Project.t) (w : World) :
  post (workflow_run p w) (Project.workflow (p, w)).
Proof.
  destruct p as [name [c|] [f|] [m|] lg];
    try (apply run_absent; cbn; auto; fail).
  set (p := Project.mk name (Some c) (Some f) (Some m) lg).
  assert (Project.client p <> None) as Hc by discriminate.
  assert (Project.freelancer p <> None) as Hf by discriminate.
  assert (Project.milestone p = Some m) as Hm by reflexivity.
  pose proof (console_only_refl w) as F.
  unfold Project.workflow, Project.client_arrow, Project.freelancer_arrow,
    Project.milestone_arrow, Project.logger_arrow.
  apply post_bind, post_this. cbv beta iota.
  apply post_bind. cbn [is_null orb Project.client Project.freelancer Project.milestone p]. apply post_ret. cbv beta iota.
  do 3 cout_step F.
  apply post_bind, (post_arrow _ _ _ _ _ _ c); [reflexivity|].
  apply post_displayInfo. frame F. change (Project.set_client p c) with p.
  apply post_bind, (post_arrow _ _ _ _ _ _ f); [reflexivity|].
  apply post_displayInfo. frame F. change (Project.set_freelancer p f) with p.
  do 2 cout_step F.
  apply post_bind, (post_arrow _ _ _ _ _ _ m); [reflexivity|].
  apply post_displayMilestone. frame F. change (Project.set_milestone p m) with p.
  destruct (Milestone.paymentMethod (DynMilestone.base m)) as [pay|] eqn:Hpay;
    [|eapply run_no_payment_method; eauto].
  cout_step F.
  apply post_bind, (post_arrow _ _ _ _ _ _ m); [reflexivity|].
  apply post_complete; [intros m' | ]; frame F;
    [intros Hm' | intros Hfail; eapply run_invalid_hours; eauto].
  destruct (completes_to_keeps _ _ Hm') as [Hti Hpm]. rewrite Hpay in Hpm.
  set (p' := Project.set_milestone p m').
  apply post_bind, (post_arrow _ _ _ _ _ _ m'); [reflexivity|].
  apply post_calculatePayment. intros a Ha. cbv beta iota.
  change (Project.set_milestone p' m') with p'.
  apply post_bind.
  destruct (dle a dzero) eqn:Hle.
  { apply post_throw. apply (run_payment_failure p w m pay m' a); auto. }
  apply post_ret. cbv beta iota.
  apply post_bind, (post_arrow _ _ _ _ _ _ m'); [reflexivity|].
  apply (post_processPayment m' pay _ _ Hpm). intros wp Fp. cbv beta iota.
  change (Project.set_milestone p' m') with p'.
  assert (paid_only w wp) as Fw.
  { destruct F as (F1 & F2 & F3 & F4), Fp as (P1 & P2 & P3 & P4).
    repeat split; congruence. }
  clear Fp.
  apply post_bind, (post_arrow _ _ _ _ _ _ m'); [reflexivity|].
  apply post_getTitle. cbv beta iota.
  change (Project.set_milestone p' m') with p'.
  apply post_bind, (post_arrow _ _ _ _ _ _ m'); [reflexivity|].
  apply (post_getPaymentType m' pay _ _ Hpm). intros ty Hty. cbv beta iota.
  change (Project.set_milestone p' m') with p'.
  rewrite Hti.
  apply post_bind.
  destruct lg as [lg|].
  2:{ apply post_arrow_null; [reflexivity|].
      apply (run_no_logger p w m pay m' a); auto. }
  apply (post_arrow _ _ _ _ _ _ lg); [reflexivity|].
  assert (unwritable wp = unwritable w) as Hun.
  { destruct Fw as (_ & _ & -> & _). reflexivity. }
  apply post_logPaymentReceipt; rewrite Hun; intros wl Hin Hcerr Hfiles Hcalls;
    cbv beta iota; change (Project.set_logger p' lg) with p'.
  - apply (run_log_failure p w m pay m' a ty lg); auto.
    all: destruct Fw as (P1 & P2 & P3 & P4); try congruence.
    rewrite Hcalls, P4, <- app_assoc. reflexivity.
  - apply post_to_cout. intros wf (C1 & C2 & C3 & C4).
    destruct Fw as (P1 & P2 & P3 & P4).
    apply (run_success p w m pay m' a ty lg); auto; try congruence.
    rewrite C4, Hcalls, P4, <- app_assoc. reflexivity.
Qed.

(** ** The workflow boundary *)

Lemma executeProjectWorkflow_run (p : Project.t) (w : World) :
  Project.executeProjectWorkflow (p, w) =
  match outcome_of (Project.workflow (p, w)) with
  | Raise e =>
      (Normal tt, (object_of (Project.workflow (p, w)),
                   put_cerr (error_report e) (world_of (Project.workflow (p, w)))))
  | _ => Project.workflow (p, w)
  end.
Proof.
  unfold Project.executeProjectWorkflow, try_catch.
  destruct (Project.workflow (p, w)) as [[[]|e|c] [o w']]; try reflexivity.
  destruct e; reflexivity.
Qed.

(** The amount [calculatePayment] returns once [complete] has succeeded is
    the same in every world. *)
Lemma amount_after_completion (m m' : DynMilestone.t) (a a' : double)
    (w : World) :
  completes_to m m' -> amount_due m' a ->
  outcome_of (DynMilestone.complete (m, w)) = Normal tt ->
  outcome_of (DynMilestone.calculatePayment
                (snd (DynMilestone.complete (m, w)))) = Normal a' ->
  a' = a.
Proof.
  intros Hm Ha _ H. destruct (Hm w) as [_ Ho].
  destruct (DynMilestone.complete (m, w)) as [r [o w1]]. cbn in *. subst o.
  rewrite (Ha w1) in H. cbn in H. congruence.
Qed.

(** C1. When the client, the freelancer or the milestone is absent, or when
    [complete] succeeds and [calculatePayment] then returns an amount
    [<= 0], a run of [executeProjectWorkflow] contains no call of
    [processPayment] and none of [logPaymentReceipt], and leaves every file
    as it was. *)
Theorem no_payment_without_party_or_amount (p : Project.t) (w : World) :
  (Project.client p = None \/ Project.freelancer p = None \/
   Project.milestone p = None \/
   exists m w0 a,
     Project.milestone p = Some m /\
     outcome_of (DynMilestone.complete (m, w0)) = Normal tt /\
     outcome_of (DynMilestone.calculatePayment
                   (snd (DynMilestone.complete (m, w0)))) = Normal a /\
     dle a dzero = true) ->
  let r := Project.executeProjectWorkflow (p, w) in
  calls (world_of r) = calls w /\ files (world_of r) = files w.
Proof.
  intros Hyp r. subst r. rewrite executeProjectWorkflow_run.
  pose proof (workflow_run_sound p w) as Hrun. unfold post in Hrun.
  assert (forall m m' a, Project.client p <> None ->
            Project.freelancer p <> None ->
            Project.milestone p = Some m -> completes_to m m' ->
            amount_due m' a -> dle a dzero = false -> False) as Hpaid.
  { intros m m' a Hc0 Hf0 Hm Hm' Ha Hle.
    destruct Hyp as [H|[H|[H|(m0 & w0 & a0 & H & Hc & Hp & Hle0)]]];
      try congruence.
    rewrite Hm in H. injection H as <-.
    rewrite (amount_after_completion m m' a a0 w0 Hm' Ha Hc Hp) in Hle0.
    congruence. }
  destruct (Project.workflow (p, w)) as [r [o w']].
  unfold outcome_of, object_of, world_of in *. cbn [fst snd] in *.
  inversion Hrun; subst; cbn [fst snd put_cerr calls files cerr];
    try (exfalso; eapply Hpaid; eassumption);
    try match goal with
        | H : console_only _ _ |- _ => destruct H as (_ & ? & _ & ?)
        end;
    auto.
Qed.

Lemma no_payment_witness :
  calls (world_of (Project.executeProjectWorkflow
                     (zeroPriceProject, empty_world))) = [] /\
  files (world_of (Project.executeProjectWorkflow
                     (zeroPriceProject, empty_world))) = ∅.
Proof.
  destruct (no_payment_without_party_or_amount zeroPriceProject empty_world)
    as (Hcalls & Hfiles).
  - right. right. right. eexists _, empty_world, _.
    repeat split; reflexivity.
  - split; assumption.
Defined.

(** C2. [executeProjectWorkflow] never ends by raising: whatever the
    [try] block raises is one of the four kinds, is caught by the single
    [catch] clause, is reported by one line on [cerr], and the call returns
    normally with the project and the rest of the world as the block left
    them.  When the block does not raise, nothing is added. *)
Theorem workflow_failures_are_caught (p : Project.t) (w : World) :
  let body := Project.workflow (p, w) in
  let r := Project.executeProjectWorkflow (p, w) in
  (forall e, outcome_of r <> Raise e) /\
  (forall e, outcome_of body = Raise e ->
     (e = InvalidHoursException \/ e = NullPointerException \/
      e = PaymentFailureException \/
      e = runtime_error "Unable to open log file") /\
     outcome_of r = Normal tt /\
     object_of r = object_of body /\
     world_of r = put_cerr (error_report e) (world_of body)) /\
  ((forall e, outcome_of body <> Raise e) -> r = body).
Proof.
  intros body r. subst body r. rewrite executeProjectWorkflow_run.
  pose proof (workflow_run_sound p w) as Hrun. unfold post in Hrun.
  destruct (Project.workflow (p, w)) as [r [o w']].
  unfold outcome_of, object_of, world_of in *. cbn [fst snd] in *.
  split; [|split].
  - intros e. destruct r; cbn; congruence.
  - intros e ->. cbn. repeat split. inversion Hrun; auto.
  - intros H. destruct r; try reflexivity. destruct (H e). reflexivity.
Qed.

Lemma workflow_failures_witness :
  outcome_of (Project.executeProjectWorkflow (zeroPriceProject, empty_world))
  = Normal tt /\
  cerr (world_of (Project.executeProjectWorkflow
                    (zeroPriceProject, empty_world)))
  = error_report PaymentFailureException.
Proof.
  destruct (workflow_failures_are_caught zeroPriceProject empty_world)
    as (_ & Hcaught & _).
  destruct (Hcaught PaymentFailureException) as (_ & Hr & _ & Hw);
    [reflexivity|].
  split; [exact Hr|]. rewrite Hw. reflexivity.
Defined.

(** ** The logger is not part of the null check *)

(** C9, as stated, fails: with client, freelancer and milestone present
    and no logger, an hourly milestone of zero hours stops the run at
    [complete], and the call returns normally without reaching the logger. *)
Lemma logger_absent_counterexample :
  ~ (forall (p : Project.t) (w : World),
       Project.client p <> None -> Project.freelancer p <> None ->
       Project.milestone p <> None -> Project.logger p = None ->
       outcome_of (Project.workflow (p, w)) <> Raise NullPointerException /\
       outcome_of (Project.executeProjectWorkflow (p, w))
       = Crash (NullDereference ptr_logger)).
Proof.
  intros H.
  pose proof (proj2 (H (hourlyProject dzero None) empty_world
                       ltac:(discriminate) ltac:(discriminate)
                       ltac:(discriminate) eq_refl)) as E.
  vm_compute in E. discriminate E.
Qed.

(** C9, amended.  With client, freelancer and milestone present and the
    logger absent, the null check passes: the [try] block does not raise
    [NullPointerException].  If moreover the milestone has a payment
    method, [complete] succeeds and the amount is not [<= 0], the run
    processes the payment and then stops at the dereference of the null
    logger; no receipt is written and nothing is reported on [cerr]. *)
Theorem absent_logger_is_dereferenced (p : Project.t) (w : World)
    (m : DynMilestone.t) :
  Project.client p <> None -> Project.freelancer p <> None ->
  Project.milestone p = Some m -> Project.logger p = None ->
  let r := Project.executeProjectWorkflow (p, w) in
  outcome_of (Project.workflow (p, w)) <> Raise NullPointerException /\
  (forall w0 a,
     Milestone.paymentMethod (DynMilestone.base m) <> None ->
     outcome_of (DynMilestone.complete (m, w0)) = Normal tt ->
     outcome_of (DynMilestone.calculatePayment
                   (snd (DynMilestone.complete (m, w0)))) = Normal a ->
     dle a dzero = false ->
     outcome_of r = Crash (NullDereference ptr_logger) /\
     calls (world_of r) = calls w ++ [Call_processPayment] /\
     files (world_of r) = files w /\
     cerr (world_of r) = cerr w).
Proof.
  intros Hc Hf Hm Hlg r. subst r. rewrite executeProjectWorkflow_run.
  pose proof (workflow_run_sound p w) as Hrun. unfold post in Hrun.
  destruct (Project.workflow (p, w)) as [r [o w']].
  unfold outcome_of, object_of, world_of in *. cbn [fst snd] in *.
  split.
  - inversion Hrun; subst; try discriminate. intuition congruence.
  - intros w0 a Hpm Hco Hpay Hle.
    inversion Hrun; subst; cbn [fst snd]; try congruence;
      try (replace m0 with m in * by congruence).
    + intuition congruence.
    + match goal with H : forall _, _ = Raise _ |- _ => specialize (H w0) end.
      unfold outcome_of in *. congruence.
    + match goal with
      | H1 : completes_to _ _, H2 : amount_due _ _ |- _ =>
          pose proof (amount_after_completion _ _ _ _ _ H1 H2 Hco Hpay)
      end. congruence.
    + match goal with H : paid_only _ _ |- _ =>
        destruct H as (? & ? & _ & ?) end. auto.
Qed.

Lemma absent_logger_witness :
  outcome_of (Project.executeProjectWorkflow
                (hourlyProject 8%float None, empty_world))
  = Crash (NullDereference ptr_logger) /\
  calls (world_of (Project.executeProjectWorkflow
                     (hourlyProject 8%float None, empty_world)))
  = [Call_processPayment].
Proof.
  destruct (absent_logger_is_dereferenced (hourlyProject 8%float None)
              empty_world _ ltac:(discriminate) ltac:(discriminate)
              eq_refl eq_refl) as [_ H].
  destruct (H empty_world 400%float) as (Ho & Hc & _);
    [discriminate|reflexivity|reflexivity|reflexivity|].
  split; assumption.
Defined.

(** ** The receipt and the amount stored in the payment *)

Lemma with_amount_title (x : double) (m : DynMilestone.t) :
  Milestone.title (DynMilestone.base (milestone_with_amount x m))
  = Milestone.title (DynMilestone.base m).
Proof. destruct m as [[[ti de co pm] A]|[[ti de co pm] h rt]]; reflexivity. Qed.

Lemma with_amount_paymentMethod (x : double) (m : DynMilestone.t) :
  Milestone.paymentMethod (DynMilestone.base (milestone_with_amount x m))
  = option_map (payment_with_amount x)
      (Milestone.paymentMethod (DynMilestone.base m)).
Proof. destruct m as [[[ti de co pm] A]|[[ti de co pm] h rt]]; reflexivity. Qed.

Lemma with_amount_complete (x : double) (m : DynMilestone.t) (w : World) :
  outcome_of (DynMilestone.complete (milestone_with_amount x m, w))
  = outcome_of (DynMilestone.complete (m, w)) /\
  object_of (DynMilestone.complete (milestone_with_amount x m, w))
  = milestone_with_amount x (object_of (DynMilestone.complete (m, w))).
Proof.
  destruct m as [[[ti de co pm] A]|[[ti de co pm] h rt]].
  - split; reflexivity.
  - unfold DynMilestone.complete, DynMilestone.dispatch,
      HourlyMilestone.complete. run.
    destruct (dle h dzero); run; split; reflexivity.
Qed.

Lemma with_amount_calculatePayment (x : double) (m : DynMilestone.t)
    (w : World) :
  outcome_of (DynMilestone.calculatePayment (milestone_with_amount x m, w))
  = outcome_of (DynMilestone.calculatePayment (m, w)).
Proof.
  destruct m as [[[ti de [|] pm] A]|[[ti de [|] pm] h rt]]; reflexivity.
Qed.

Lemma with_amount_getPaymentType (x : double) (pay : Payment.t) (w : World) :
  outcome_of (Payment.getPaymentType (payment_with_amount x pay, w))
  = outcome_of (Payment.getPaymentType (pay, w)).
Proof. destruct pay; reflexivity. Qed.

(** Reading the premises of a run at the empty world. *)
Lemma completes_to_elim (m m' : DynMilestone.t) :
  completes_to m m' ->
  outcome_of (DynMilestone.complete (m, empty_world)) = Normal tt /\
  object_of (DynMilestone.complete (m, empty_world)) = m'.
Proof. intros H. apply H. Qed.

Lemma amount_due_elim (m : DynMilestone.t) (a : double) :
  amount_due m a ->
  outcome_of (DynMilestone.calculatePayment (m, empty_world)) = Normal a.
Proof. intros H. rewrite (H empty_world). reflexivity. Qed.

Lemma payment_type_elim (pay : Payment.t) (ty : string) :
  payment_type pay ty ->
  outcome_of (Payment.getPaymentType (pay, empty_world)) = Normal ty.
Proof. intros H. rewrite (H empty_world). reflexivity. Qed.

Ltac at_empty_world :=
  repeat match goal with
    | H : completes_to _ _ |- _ =>
        apply completes_to_elim in H; destruct H as [? ?]
    | H : amount_due _ _ |- _ => apply amount_due_elim in H
    | H : payment_type _ _ |- _ => apply payment_type_elim in H
    | H : forall w0 : World, outcome_of (DynMilestone.complete _) = _ |- _ =>
        specialize (H empty_world)
    | H : console_only _ _ |- _ => destruct H as (? & ? & ? & ?)
    | H : paid_only _ _ |- _ => destruct H as (? & ? & ? & ?)
    end.

(** Two runs from the same world, on projects that differ in the stored
    payment amount only, end alike and agree on everything but [cout]. *)
Lemma workflow_run_ignores_amount (x : double) (p : Project.t) (w : World)
    r1 o1 w1 r2 o2 w2 :
  workflow_run p w r1 o1 w1 ->
  workflow_run (project_with_amount x p) w r2 o2 w2 ->
  r1 = r2 /\ cerr w1 = cerr w2 /\ files w1 = files w2 /\ calls w1 = calls w2.
Proof.
  intros H1 H2. destruct p as [name c f [m|] lg].
  2:{ inversion H1; inversion H2; subst; cbn in *; try discriminate; auto. }
  pose proof (with_amount_title x m) as Hti.
  pose proof (with_amount_paymentMethod x m) as Hpm.
  destruct (with_amount_complete x m empty_world) as [Hco Hob].
  inversion H1; inversion H2; clear H1 H2; subst;
    cbn [project_with_amount option_map Project.client Project.freelancer
         Project.milestone Project.logger Project.projectName] in *;
    simplify_eq; at_empty_world; try (intuition congruence);
    subst;
    rewrite ?Hob, ?Hpm, ?with_amount_calculatePayment, ?Hco, ?Hti in *;
    try congruence;
    repeat match goal with
      | H : Milestone.paymentMethod _ = _ |- _ =>
          rewrite H in *; cbn [option_map] in *; simplify_eq
      end;
    rewrite ?with_amount_getPaymentType in *;
    try congruence; repeat split; congruence.
Qed.

(** C10, as stated, fails where it says the stored amount is never
    consulted: [processPayment] prints it, so the run of the first demo
    differs from the run of the same project with [0] stored in its
    payment. *)
Lemma stored_amount_counterexample :
  ~ (forall (p : Project.t) (x : double) (w : World),
       world_of (Project.executeProjectWorkflow (project_with_amount x p, w))
       = world_of (Project.executeProjectWorkflow (p, w))).
Proof.
  intros H. specialize (H demo1 dzero empty_world).
  apply (f_equal (fun w => prints_double dzero (cout w))) in H.
  vm_compute in H. discriminate H.
Qed.

(** ** The stored amount reaches the console through the notice only *)

Lemma sbn_app (x : double) (l c1 c2 : stream) :
  same_but_notices x c1 c2 -> same_but_notices x (c1 ++ l) (c2 ++ l).
Proof.
  revert c1 c2. induction l as [|i l IH]; intros c1 c2 H.
  - rewrite !app_nil_r. exact H.
  - change (i :: l) with ([i] ++ l). rewrite !app_assoc.
    apply IH, sbn_item, H.
Qed.

Lemma sbn_refl (x : double) (c : stream) : same_but_notices x c c.
Proof. apply (sbn_app x c [] []), sbn_nil. Qed.

Lemma agree_refl (x : double) (w : World) : agree x w w.
Proof. repeat split. apply sbn_refl. Qed.

Ltac agree_tac H :=
  let H1 := fresh in let H2 := fresh in let H3 := fresh in
  let H4 := fresh in let H5 := fresh in
  destruct H as (H1 & H2 & H3 & H4 & H5);
  unfold agree; cbn [cout cerr files unwritable calls put_cout put_cerr
                     record_call append_file];
  rewrite ?H1, ?H2, ?H3, ?H4;
  (split; [reflexivity|]); (split; [reflexivity|]);
  (split; [reflexivity|]); (split; [reflexivity|]);
  repeat apply sbn_app; try exact H5.

Section Simulation.
Context {T : Type} (x : double) (g : T -> T).

Lemma msim_ret {A} (a : A) : msim x g (mret a : Method T A) (mret a).
Proof. intros o w1 w2 H. repeat split; apply H. Qed.

Lemma msim_throw {A} (e : exn) : msim x g (throw e : Method T A) (throw e).
Proof. intros o w1 w2 H. repeat split; apply H. Qed.

Lemma msim_to_cout (l : stream) : msim x g (to_cout l) (to_cout l).
Proof.
  intros o w1 w2 H. split; [reflexivity|]. split; [reflexivity|].
  unfold world_of. cbn [to_cout effect fst snd]. agree_tac H.
Qed.

Lemma msim_bind {A B} (f1 f2 : Method T A) (k1 k2 : A -> Method T B) :
  msim x g f1 f2 -> (forall a, msim x g (k1 a) (k2 a)) ->
  msim x g (f1 ≫= k1) (f2 ≫= k2).
Proof.
  intros Hf Hk o w1 w2 H. specialize (Hf o w1 w2 H).
  unfold mbind, M_bind. unfold sim, outcome_of, object_of, world_of in Hf.
  destruct (f1 (o, w1)) as [r1 [o1 w1']], (f2 (g o, w2)) as [r2 [o2 w2']].
  cbn [fst snd] in Hf. destruct Hf as (-> & -> & Hw).
  destruct r1 as [a|e|c]; [apply Hk, Hw| |]; repeat split; apply Hw.
Qed.

Lemma msim_this_bind {B} (k1 k2 : T -> Method T B) :
  (forall o, msim x g (k1 o) (k2 (g o))) ->
  msim x g (this ≫= k1) (this ≫= k2).
Proof. intros Hk o w1 w2 H. apply (Hk o o w1 w2 H). Qed.

Lemma msim_if {A} (b : bool) (f1 f2 h1 h2 : Method T A) :
  msim x g f1 f2 -> msim x g h1 h2 ->
  msim x g (if b then f1 else h1) (if b then f2 else h2).
Proof. destruct b; auto. Qed.

Lemma msim_arrow {U A} (g' : U -> U) name (get : T -> option U)
    (set : T -> U -> T) (f : Method U A) :
  (forall o, get (g o) = option_map g' (get o)) ->
  (forall o u, set (g o) (g' u) = g (set o u)) ->
  msim x g' f f ->
  msim x g (arrow name get set f) (arrow name get set f).
Proof.
  intros Hget Hset Hf o w1 w2 H. unfold arrow. cbn [fst snd].
  rewrite Hget. destruct (get o) as [u|]; cbn [option_map].
  - specialize (Hf u w1 w2 H).
    unfold sim, outcome_of, object_of, world_of in *.
    destruct (f (u, w1)) as [r1 [u1 w1']], (f (g' u, w2)) as [r2 [u2 w2']].
    cbn [fst snd] in *. destruct Hf as (-> & -> & Hw).
    rewrite Hset. auto.
  - repeat split; apply H.
Qed.

End Simulation.

Ltac sim_tac H :=
  unfold sim, outcome_of, object_of, world_of; run;
  (split; [reflexivity|]); (split; [reflexivity|]); agree_tac H.

Lemma msim_displayInfo (x : double) :
  msim x id User.displayInfo User.displayInfo.
Proof.
  intros u w1 w2 H. unfold User.displayInfo. destruct u; sim_tac H.
Qed.

Lemma msim_displayMilestone (x : double) :
  msim x (milestone_with_amount x)
    DynMilestone.displayMilestone DynMilestone.displayMilestone.
Proof.
  intros m w1 w2 H.
  unfold DynMilestone.displayMilestone, DynMilestone.inherited,
    Milestone.displayMilestone, arrow, crash, Payment.getPaymentType.
  destruct m as [[[ti de co [[a|a]|]] A]|[[ti de co [[a|a]|]] h rt]];
    sim_tac H.
Qed.

Lemma msim_complete (x : double) :
  msim x (milestone_with_amount x) DynMilestone.complete DynMilestone.complete.
Proof.
  intros m w1 w2 H.
  unfold DynMilestone.complete, DynMilestone.dispatch,
    FixedPriceMilestone.complete, HourlyMilestone.complete,
    FixedPriceMilestone.calculatePayment, HourlyMilestone.calculatePayment.
  destruct m as [[[ti de co pm] A]|[[ti de co pm] h rt]].
  - sim_tac H.
  - unfold sim, outcome_of, object_of, world_of. run.
    destruct (dle h dzero); run;
      (split; [reflexivity|]); (split; [reflexivity|]); agree_tac H.
Qed.

Lemma msim_calculatePayment (x : double) :
  msim x (milestone_with_amount x)
    DynMilestone.calculatePayment DynMilestone.calculatePayment.
Proof.
  intros m w1 w2 H.
  unfold DynMilestone.calculatePayment, DynMilestone.dispatch,
    FixedPriceMilestone.calculatePayment, HourlyMilestone.calculatePayment.
  destruct m as [[[ti de [|] pm] A]|[[ti de [|] pm] h rt]]; sim_tac H.
Qed.

Lemma msim_getTitle (x : double) :
  msim x (milestone_with_amount x) DynMilestone.getTitle DynMilestone.getTitle.
Proof.
  intros m w1 w2 H.
  unfold DynMilestone.getTitle, DynMilestone.inherited, Milestone.getTitle.
  destruct m as [[[ti de co pm] A]|[[ti de co pm] h rt]]; sim_tac H.
Qed.

Lemma msim_getPaymentType (x : double) :
  msim x (milestone_with_amount x)
    (DynMilestone.paymentMethod_arrow Payment.getPaymentType)
    (DynMilestone.paymentMethod_arrow Payment.getPaymentType).
Proof.
  intros m w1 w2 H.
  unfold DynMilestone.paymentMethod_arrow, DynMilestone.inherited, arrow,
    crash, Payment.getPaymentType.
  destruct m as [[[ti de co [[a|a]|]] A]|[[ti de co [[a|a]|]] h rt]];
    sim_tac H.
Qed.

(** The one place where the two runs print different items. *)
Lemma msim_processPayment (x : double) :
  msim x (milestone_with_amount x)
    (DynMilestone.paymentMethod_arrow Payment.processPayment)
    (DynMilestone.paymentMethod_arrow Payment.processPayment).
Proof.
  intros m w1 w2 H.
  unfold DynMilestone.paymentMethod_arrow, DynMilestone.inherited, arrow,
    crash, Payment.processPayment.
  destruct m as [[[ti de co [[a|a]|]] A]|[[ti de co [[a|a]|]] h rt]];
    unfold sim, outcome_of, object_of, world_of; run;
    (split; [reflexivity|]); (split; [reflexivity|]);
    try (agree_tac H; fail);
    destruct H as (H1 & H2 & H3 & H4 & H5); unfold agree; cbn;
    rewrite ?H1, ?H2, ?H3, ?H4; repeat split; rewrite <- !app_assoc.
  - apply (sbn_notice x (Payment.Escrow a)), H5.
  - apply (sbn_notice x (Payment.Direct a)), H5.
  - apply (sbn_notice x (Payment.Escrow a)), H5.
  - apply (sbn_notice x (Payment.Direct a)), H5.
Qed.

Lemma msim_logPaymentReceipt (x : double) (t : string) (a : double)
    (ty : string) :
  msim x id (Logger.logPaymentReceipt t a ty) (Logger.logPaymentReceipt t a ty).
Proof.
  intros [path] w1 w2 H. unfold Logger.logPaymentReceipt.
  unfold sim, outcome_of, object_of, world_of. run.
  assert (unwritable w2 = unwritable w1) as -> by apply H.
  destruct (bool_decide (path ∈ unwritable w1)); run;
    (split; [reflexivity|]); (split; [reflexivity|]).
  - agree_tac H.
  - destruct H as (H1 & H2 & H3 & H4 & H5). unfold agree. cbn.
    rewrite ?H1, ?H2, ?H3, ?H4. repeat split. apply sbn_app, H5.
Qed.

(** Started in worlds that agree, the [try] block runs alike on a project
    and on the same project with [x] stored in its payment. *)
Lemma workflow_sim (x : double) :
  msim x (project_with_amount x) Project.workflow Project.workflow.
Proof.
  assert (forall A (f : Method User.t A), msim x id f f ->
            msim x (project_with_amount x) (Project.client_arrow f)
              (Project.client_arrow f)) as Hclient.
  { intros A f Hf. apply (msim_arrow x _ id); [| |exact Hf].
    - intros [n [c|] fr m lg]; reflexivity.
    - intros [n c fr m lg] u; reflexivity. }
  assert (forall A (f : Method User.t A), msim x id f f ->
            msim x (project_with_amount x) (Project.freelancer_arrow f)
              (Project.freelancer_arrow f)) as Hfreelancer.
  { intros A f Hf. apply (msim_arrow x _ id); [| |exact Hf].
    - intros [n c [fr|] m lg]; reflexivity.
    - intros [n c fr m lg] u; reflexivity. }
  assert (forall A (f : Method DynMilestone.t A),
            msim x (milestone_with_amount x) f f ->
            msim x (project_with_amount x) (Project.milestone_arrow f)
              (Project.milestone_arrow f)) as Hmilestone.
  { intros A f Hf.
    apply (msim_arrow x _ (milestone_with_amount x)); [| |exact Hf].
    - intros [n c fr m lg]; reflexivity.
    - intros [n c fr m lg] u; reflexivity. }
  assert (forall A (f : Method Logger.t A), msim x id f f ->
            msim x (project_with_amount x) (Project.logger_arrow f)
              (Project.logger_arrow f)) as Hlogger.
  { intros A f Hf. apply (msim_arrow x _ id); [| |exact Hf].
    - intros [n c fr m [lg|]]; reflexivity.
    - intros [n c fr m lg] u; reflexivity. }
  unfold Project.workflow. apply msim_this_bind. intros [n c fr m lg].
  cbn [project_with_amount Project.client Project.freelancer
       Project.milestone Project.logger Project.projectName].
  replace (is_null (option_map (milestone_with_amount x) m))
    with (is_null m) by (destruct m; reflexivity).
  apply msim_bind; [apply msim_if; [apply msim_throw|apply msim_ret]|].
  intros _.
  repeat (apply msim_bind; [apply msim_to_cout|intros _]).
  apply msim_bind; [apply Hclient, msim_displayInfo|intros _].
  apply msim_bind; [apply Hfreelancer, msim_displayInfo|intros _].
  repeat (apply msim_bind; [apply msim_to_cout|intros _]).
  apply msim_bind; [apply Hmilestone, msim_displayMilestone|intros _].
  apply msim_bind; [apply msim_to_cout|intros _].
  apply msim_bind; [apply Hmilestone, msim_complete|intros _].
  apply msim_bind; [apply Hmilestone, msim_calculatePayment|intros amount].
  apply msim_bind; [apply msim_if; [apply msim_throw|apply msim_ret]|].
  intros _.
  apply msim_bind; [apply Hmilestone, msim_processPayment|intros _].
  apply msim_bind; [apply Hmilestone, msim_getTitle|intros title].
  apply msim_bind; [apply Hmilestone, msim_getPaymentType|intros ty].
  apply msim_bind; [apply Hlogger, msim_logPaymentReceipt|intros _].
  apply msim_to_cout.
Qed.

(** C10, amended.  When the [try] block returns normally, the amount in the
    receipt (and in the recorded call of the logger) is the value
    [calculatePayment] returns after [complete].  The amount stored in the
    payment object is used by the workflow in the console notice of
    [processPayment] and nowhere else: the same project with any other
    amount [x] stored makes [executeProjectWorkflow] end in the same way,
    with the same files, the same calls and the same [cerr], with the
    project left the same up to that stored amount, and with the same
    [cout], item by item, except that the notice shows [x].  So the logged
    amount need not be the stored one. *)
Theorem receipt_amount_is_calculated (p : Project.t) (w : World) :
  (forall o w', Project.workflow (p, w) = (Normal tt, (o, w')) ->
     exists m lg a ty,
       Project.milestone p = Some m /\ Project.logger p = Some lg /\
       (forall w0,
          outcome_of (DynMilestone.complete (m, w0)) = Normal tt /\
          outcome_of (DynMilestone.calculatePayment
                        (snd (DynMilestone.complete (m, w0)))) = Normal a) /\
       calls w' = calls w ++
                  [Call_processPayment;
                   Call_logPaymentReceipt
                     (Milestone.title (DynMilestone.base m)) a ty] /\
       files w' = <[Logger.logFileName lg :=
                      default [] (files w !! Logger.logFileName lg)
                      ++ Logger.receipt
                           (Milestone.title (DynMilestone.base m)) a ty]>
                    (files w)) /\
  (forall x,
     let r := Project.executeProjectWorkflow (p, w) in
     let r' := Project.executeProjectWorkflow (project_with_amount x p, w) in
     outcome_of r' = outcome_of r /\
     files (world_of r') = files (world_of r) /\
     calls (world_of r') = calls (world_of r) /\
     cerr (world_of r') = cerr (world_of r) /\
     object_of r' = project_with_amount x (object_of r) /\
     same_but_notices x (cout (world_of r)) (cout (world_of r'))).
Proof.
  split.
  - intros o w' E.
    pose proof (workflow_run_sound p w) as Hrun. unfold post in Hrun.
    rewrite E in Hrun. unfold outcome_of, object_of, world_of in Hrun.
    cbn [fst snd] in Hrun. inversion Hrun; subst.
    exists m, lg, a, ty. repeat split; auto.
    + match goal with H : completes_to _ _ |- _ => apply (H w0) end.
    + match goal with
      | H1 : completes_to _ _, H2 : amount_due _ _ |- _ =>
          destruct (H1 w0) as [_ Ho];
          destruct (DynMilestone.complete (m, w0)) as [r1 [o1 w1]];
          cbn in Ho; subst o1; cbn [snd]; rewrite (H2 w1); reflexivity
      end.
  - intros x r r'. subst r r'. rewrite !executeProjectWorkflow_run.
    destruct (workflow_sim x p w w (agree_refl x w))
      as (_ & Hobj & _ & _ & _ & _ & Hcout).
    pose proof (workflow_run_sound p w) as H1.
    pose proof (workflow_run_sound (project_with_amount x p) w) as H2.
    unfold post in H1, H2.
    destruct (workflow_run_ignores_amount x p w _ _ _ _ _ _ H1 H2)
      as (Hr & Hcerr & Hfiles & Hcalls).
    destruct (Project.workflow (p, w)) as [r1 [o1 w1]].
    destruct (Project.workflow (project_with_amount x p, w)) as [r2 [o2 w2]].
    unfold outcome_of, object_of, world_of in *. cbn [fst snd] in *.
    subst r2. destruct r1; cbn; rewrite ?Hcerr; auto 10.
Qed.

(** An hourly project as [runCustomProject] builds it, eight hours at
    rate 50: the receipt says 400, the payment object of its milestone
    stores 0. *)
Lemma receipt_amount_witness :
  exists a ty m pay,
    Project.milestone
      (hourlyProject 8%float (Some (Logger.mk "payment_receipts.txt")))
    = Some m /\
    Milestone.paymentMethod (DynMilestone.base m) = Some pay /\
    Payment.getAmount pay = dzero /\
    calls (world_of (Project.workflow
                       (hourlyProject 8%float
                          (Some (Logger.mk "payment_receipts.txt")),
                        empty_world)))
    = [Call_processPayment;
       Call_logPaymentReceipt "Test Milestone" a ty] /\
    a = 400%float.
Proof.
  pose (P := hourlyProject 8%float (Some (Logger.mk "payment_receipts.txt"))).
  destruct (proj1 (receipt_amount_is_calculated P empty_world)
              (object_of (Project.workflow (P, empty_world)))
              (world_of (Project.workflow (P, empty_world))))
    as (m & lg & a & ty & Hm & Hlg & Ha & Hcalls & _).
  { vm_compute. reflexivity. }
  destruct (Ha empty_world) as [_ Hv].
  vm_compute in Hm. injection Hm as <-. vm_compute in Hv. injection Hv as <-.
  exists 400%float, ty. eexists. exists (Payment.Direct 0%float).
  split; [reflexivity|]. split; [reflexivity|]. split; [reflexivity|].
  split; [exact Hcalls|reflexivity].
Defined.

(** ** The scenarios of the demo program, run on the model *)

(** The first demo completes and appends one receipt: "Website", 2500,
    "Escrow". *)
Example demo1_logs_receipt :
  outcome_of (Project.workflow (demo1, empty_world)) = Normal tt /\
  files (world_of (Project.workflow (demo1, empty_world)))
    !! "payment_receipts.txt"
  = Some (Logger.receipt "Website" 2500%float "Escrow") /\
  cerr (world_of (Project.executeProjectWorkflow (demo1, empty_world))) = [].
Proof. vm_compute. repeat split. Qed.

(** Each of the four kinds of failure arises, and each is reported. *)
Example null_pointer_is_reported :
  outcome_of (Project.workflow (noClientProject, empty_world))
  = Raise NullPointerException /\
  Project.executeProjectWorkflow (noClientProject, empty_world)
  = (Normal tt, (noClientProject,
                 put_cerr (error_report NullPointerException) empty_world)).
Proof. vm_compute. repeat split. Qed.

Example invalid_hours_is_reported :
  let p := hourlyProject dzero (Some (Logger.mk "payment_receipts.txt")) in
  outcome_of (Project.workflow (p, empty_world)) = Raise InvalidHoursException
  /\ outcome_of (Project.executeProjectWorkflow (p, empty_world)) = Normal tt
  /\ object_of (Project.executeProjectWorkflow (p, empty_world)) = p
  /\ cerr (world_of (Project.executeProjectWorkflow (p, empty_world)))
     = error_report InvalidHoursException.
Proof. vm_compute. repeat split. Qed.

Example payment_failure_is_reported :
  outcome_of (Project.workflow (zeroPriceProject, empty_world))
  = Raise PaymentFailureException /\
  cerr (world_of (Project.executeProjectWorkflow
                    (zeroPriceProject, empty_world)))
  = error_report PaymentFailureException.
Proof. vm_compute. repeat split. Qed.

Example log_failure_is_reported :
  outcome_of (Project.workflow (demo1, readonly_world))
  = Raise (runtime_error "Unable to open log file") /\
  outcome_of (Project.executeProjectWorkflow (demo1, readonly_world))
  = Normal tt /\
  cerr (world_of (Project.executeProjectWorkflow (demo1, readonly_world)))
  = error_report (runtime_error "Unable to open log file") /\
  files (world_of (Project.executeProjectWorkflow (demo1, readonly_world)))
  = ∅.
Proof. vm_compute. repeat split. Qed.

(** A failure after [complete] is not rolled back: the milestone of the
    zero-price project stays completed. *)
Example completion_is_not_rolled_back :
  option_map (fun m => Milestone.isCompleted (DynMilestone.base m))
    (Project.milestone
       (object_of (Project.executeProjectWorkflow
                     (zeroPriceProject, empty_world))))
  = Some true.
Proof. vm_compute. reflexivity. Qed.

(** * Further properties of the classes *)

(** ** The logger *)

(** X1. A call of [logPaymentReceipt] on a path that can be opened returns
    normally and puts the receipt after whatever the file held (creating the
    file when it was missing); every other file, [cerr] and the logger
    object stay as they were.  On a path that cannot be opened it throws the
    plain [runtime_error] and changes no file and no console stream. *)
Theorem logPaymentReceipt_appends (lg : Logger.t) (title : string)
    (a : double) (ty : string) (w : World) :
  let r := Logger.logPaymentReceipt title a ty (lg, w) in
  object_of r = lg /\ cerr (world_of r) = cerr w /\
  (Logger.logFileName lg ∉ unwritable w ->
   outcome_of r = Normal tt /\
   appended (Logger.logFileName lg) (Logger.receipt title a ty) w (world_of r)
   /\ cout (world_of r)
      = cout w ++ [Str "Payment receipt logged to file: ";
                   Str (Logger.logFileName lg); Endl]) /\
  (Logger.logFileName lg ∈ unwritable w ->
   outcome_of r = Raise (runtime_error "Unable to open log file") /\
   files (world_of r) = files w /\ cout (world_of r) = cout w).
Proof.
  intros r. subst r. destruct lg as [path].
  unfold Logger.logPaymentReceipt, appended. run.
  destruct (bool_decide (path ∈ unwritable w)) eqn:E; run;
    (split; [reflexivity|]); (split; [reflexivity|]).
  - apply bool_decide_eq_true in E. split; intros H; [contradiction|].
    split; [reflexivity|]. split; reflexivity.
  - apply bool_decide_eq_false in E. split; intros H; [|contradiction].
    split; [reflexivity|]. split; [split|reflexivity].
    + cbn. repeat (rewrite lookup_insert_eq; cbn).
      rewrite <- !app_assoc. reflexivity.
    + intros other Hne. cbn.
      repeat (rewrite lookup_insert_ne by congruence). reflexivity.
Qed.

Lemma logPaymentReceipt_witness :
  files (world_of (Logger.logPaymentReceipt "Website" 2500%float "Escrow"
                     (Logger.mk "payment_receipts.txt", empty_world)))
    !! "payment_receipts.txt"
  = Some (Logger.receipt "Website" 2500%float "Escrow").
Proof.
  destruct (logPaymentReceipt_appends (Logger.mk "payment_receipts.txt")
              "Website" 2500%float "Escrow" empty_world)
    as (_ & _ & Hok & _).
  destruct Hok as (_ & [Hfile _] & _); [apply not_elem_of_empty|].
  exact Hfile.
Defined.

Lemma appended_insert (path : string) (l : stream) (w w' : World) :
  files w' = <[path := default [] (files w !! path) ++ l]> (files w) ->
  appended path l w w'.
Proof.
  unfold appended. intros ->. split.
  - apply lookup_insert_eq.
  - intros other Hne. apply lookup_insert_ne. congruence.
Qed.

Lemma appended_trans (path : string) (l1 l2 : stream) (w w1 w2 : World) :
  appended path l1 w w1 -> appended path l2 w1 w2 ->
  appended path (l1 ++ l2) w w2.
Proof.
  intros [H1 O1] [H2 O2]. split.
  - rewrite H2, H1. cbn. rewrite app_assoc. reflexivity.
  - intros other Hne. rewrite O2, O1 by exact Hne. reflexivity.
Qed.

(** X2. Two calls of [logPaymentReceipt] in a row, on a path that can be
    opened, leave the file with its earlier content followed by the first
    receipt and then the second: a call never truncates or reorders. *)
Theorem logPaymentReceipt_twice (lg : Logger.t) (t1 t2 : string)
    (a1 a2 : double) (ty1 ty2 : string) (w : World) :
  Logger.logFileName lg ∉ unwritable w ->
  let r1 := Logger.logPaymentReceipt t1 a1 ty1 (lg, w) in
  let r2 := Logger.logPaymentReceipt t2 a2 ty2 (snd r1) in
  outcome_of r1 = Normal tt /\ outcome_of r2 = Normal tt /\
  appended (Logger.logFileName lg)
    (Logger.receipt t1 a1 ty1 ++ Logger.receipt t2 a2 ty2) w (world_of r2) /\
  calls (world_of r2)
  = calls w ++ [Call_logPaymentReceipt t1 a1 ty1;
                Call_logPaymentReceipt t2 a2 ty2].
Proof.
  intros Hw r1 r2. subst r1 r2.
  destruct (logPaymentReceipt_run lg t1 a1 ty1 w) as (w1 & H1 & _ & Hu1 & Hc1).
  rewrite (proj2 (bool_decide_eq_false _) Hw) in H1.
  destruct H1 as [E1 Hf1]. rewrite E1. cbn [snd].
  assert (Logger.logFileName lg ∉ unwritable w1) as Hw1
    by (rewrite Hu1; exact Hw).
  destruct (logPaymentReceipt_run lg t2 a2 ty2 w1) as (w2 & H2 & _ & _ & Hc2).
  rewrite (proj2 (bool_decide_eq_false _) Hw1) in H2.
  destruct H2 as [E2 Hf2]. rewrite E2.
  unfold outcome_of, world_of. cbn [fst snd].
  split; [reflexivity|]. split; [reflexivity|]. split.
  - exact (appended_trans _ _ _ _ _ _ (appended_insert _ _ _ _ Hf1)
             (appended_insert _ _ _ _ Hf2)).
  - rewrite Hc2, Hc1, <- app_assoc. reflexivity.
Qed.

Lemma logPaymentReceipt_twice_witness :
  files (world_of
           (Logger.logPaymentReceipt "B" 2%float "Direct"
              (snd (Logger.logPaymentReceipt "A" 1%float "Escrow"
                      (Logger.mk "payment_receipts.txt", empty_world)))))
    !! "payment_receipts.txt"
  = Some (Logger.receipt "A" 1%float "Escrow"
          ++ Logger.receipt "B" 2%float "Direct").
Proof.
  destruct (logPaymentReceipt_twice (Logger.mk "payment_receipts.txt")
              "A" "B" 1%float 2%float "Escrow" "Direct" empty_world)
    as (_ & _ & [Hfile _] & _); [apply not_elem_of_empty|].
  exact Hfile.
Defined.

(** ** Any sequence of calls on a milestone *)

Ltac branch :=
  match goal with
  | |- context [if ?b then _ else _] => destruct b eqn:?
  end.

Lemma make_call_step (c : milestone_call) (m : DynMilestone.t) (w : World) :
  let r := make_call c (m, w) in
  configuration (object_of r) = configuration m /\
  console_only w (world_of r) /\
  (Milestone.isCompleted (DynMilestone.base m) = true ->
   Milestone.isCompleted (DynMilestone.base (object_of r)) = true) /\
  (c <> call_complete ->
   Milestone.isCompleted (DynMilestone.base (object_of r))
   = Milestone.isCompleted (DynMilestone.base m)).
Proof.
  intros r. subst r.
  unfold make_call, DynMilestone.complete, DynMilestone.calculatePayment,
    DynMilestone.displayMilestone, DynMilestone.getTitle,
    DynMilestone.dispatch, DynMilestone.inherited,
    HourlyMilestone.complete, HourlyMilestone.setHoursWorked,
    FixedPriceMilestone.complete, FixedPriceMilestone.calculatePayment,
    HourlyMilestone.calculatePayment, Milestone.displayMilestone,
    Milestone.getTitle, arrow, Payment.getPaymentType, crash, console_only.
  destruct c, m as [[[ti de co [[x|x]|]] A]|[[ti de co [[x|x]|]] h rt]];
    run; repeat branch; run;
    (split; [reflexivity|]); (split; [tauto|]); split; congruence.
Qed.

Lemma make_calls_cons (c : milestone_call) (cs : list milestone_call)
    (s : DynMilestone.t * World) :
  make_calls (c :: cs) s = snd (make_call c s) \/
  make_calls (c :: cs) s = make_calls cs (snd (make_call c s)).
Proof.
  cbn [make_calls]. destruct (make_call c s) as [[a|e|f] s']; cbn; auto.
Qed.

(** X3. Completed is absorbing, and only [complete] completes: over any
    sequence of calls on a milestone, a completed milestone stays completed,
    and a sequence without [complete] leaves the completed flag as it
    was. *)
Theorem completed_is_absorbing (cs : list milestone_call)
    (m : DynMilestone.t) (w : World) :
  let m' := fst (make_calls cs (m, w)) in
  (Milestone.isCompleted (DynMilestone.base m) = true ->
   Milestone.isCompleted (DynMilestone.base m') = true) /\
  (call_complete ∉ cs ->
   Milestone.isCompleted (DynMilestone.base m')
   = Milestone.isCompleted (DynMilestone.base m)).
Proof.
  revert m w. induction cs as [|c cs IH]; intros m w; cbn zeta.
  - cbn. auto.
  - destruct (make_call_step c m w) as (_ & _ & Habs & Hother).
    destruct (make_call c (m, w)) as [r [m1 w1]] eqn:E.
    unfold object_of in *. cbn [fst snd] in *.
    destruct (IH m1 w1) as [IHabs IHother]. cbn zeta in *.
    assert (call_complete ∉ c :: cs -> c <> call_complete /\ call_complete ∉ cs)
      as Hsplit.
    { intros Hn. split; intros H; apply Hn; [subst; left|right; exact H]. }
    destruct (make_calls_cons c cs (m, w)) as [-> | ->]; rewrite E;
      cbn [fst snd]; split; auto.
    + intros Hn. apply Hsplit in Hn. tauto.
    + intros Hn. apply Hsplit in Hn. destruct Hn as [Hc Hcs].
      rewrite (IHother Hcs). auto.
Qed.

Lemma completed_is_absorbing_witness :
  Milestone.isCompleted
    (DynMilestone.base
       (fst (make_calls
               [call_setHoursWorked 0%float; call_calculatePayment;
                call_complete; call_displayMilestone]
               (object_of (DynMilestone.complete
                             (DynMilestone.Fixed fixedMilestone, empty_world)),
                empty_world))))
  = true.
Proof.
  destruct (completed_is_absorbing
              [call_setHoursWorked 0%float; call_calculatePayment;
               call_complete; call_displayMilestone]
              (object_of (DynMilestone.complete
                            (DynMilestone.Fixed fixedMilestone, empty_world)))
              empty_world) as [H _].
  apply H. reflexivity.
Defined.

(** X4. No sequence of calls on a milestone changes what its constructor
    fixed (title, description, payment object, fixed amount or hourly rate),
    and none touches a file, [cerr] or the recorded payment and logger
    calls: only [cout], the completed flag and the hours can differ. *)
Theorem calls_keep_configuration (cs : list milestone_call)
    (m : DynMilestone.t) (w : World) :
  configuration (fst (make_calls cs (m, w))) = configuration m /\
  console_only w (snd (make_calls cs (m, w))).
Proof.
  revert m w. induction cs as [|c cs IH]; intros m w.
  - split; [reflexivity|apply console_only_refl].
  - destruct (make_call_step c m w) as (Hcfg & Hframe & _).
    destruct (make_call c (m, w)) as [r [m1 w1]] eqn:E.
    unfold object_of, world_of in *. cbn [fst snd] in *.
    destruct (IH m1 w1) as [IHcfg IHframe].
    destruct (make_calls_cons c cs (m, w)) as [-> | ->]; rewrite E;
      cbn [fst snd]; split; try assumption.
    + congruence.
    + eapply console_only_trans; eassumption.
Qed.

(** ** Hours after completion *)

(** X5. [setHoursWorked] has no guard on the state: on a completed hourly
    milestone a call with hours that are not negative (zero included)
    succeeds, the milestone stays completed, and [calculatePayment] then
    returns the new hours times the rate. *)
Theorem hours_change_after_completion (m : HourlyMilestone.t) (h : double)
    (w : World) :
  Milestone.isCompleted (HourlyMilestone.base m) = true ->
  dlt h dzero = false ->
  let r1 := HourlyMilestone.setHoursWorked h (m, w) in
  let r2 := HourlyMilestone.calculatePayment (snd r1) in
  outcome_of r1 = Normal tt /\
  Milestone.isCompleted (HourlyMilestone.base (object_of r1)) = true /\
  outcome_of r2 = Normal (dmul h (HourlyMilestone.hourlyRate m)).
Proof.
  intros Hco Hlt r1 r2. subst r1 r2.
  unfold HourlyMilestone.setHoursWorked, HourlyMilestone.calculatePayment.
  destruct m as [[ti de co pm] h0 rt]. cbn in Hco. subst co.
  run. rewrite Hlt. run. auto.
Qed.

Lemma hours_change_witness :
  outcome_of
    (HourlyMilestone.calculatePayment
       (snd (HourlyMilestone.setHoursWorked 0%float
               (snd (HourlyMilestone.complete
                       (snd (HourlyMilestone.setHoursWorked 8%float
                               (badMilestone, empty_world))))))))
  = Normal 0%float.
Proof.
  apply (hours_change_after_completion
           (object_of (HourlyMilestone.complete
                         (snd (HourlyMilestone.setHoursWorked 8%float
                                 (badMilestone, empty_world)))))
           0%float); reflexivity.
Defined.

(** ** What decides a run of the workflow *)

Lemma completes_to_completed (m m' : DynMilestone.t) :
  completes_to m m' -> m' = completed m.
Proof.
  intros H. destruct (H empty_world) as [Ho <-]. revert Ho.
  destruct m as [[[ti de co pm] A]|[[ti de co pm] h rt]].
  - reflexivity.
  - unfold DynMilestone.complete, DynMilestone.dispatch,
      HourlyMilestone.complete. run.
    destruct (dle h dzero); run; [discriminate|reflexivity].
Qed.

Lemma completes_to_again (m m' : DynMilestone.t) :
  completes_to m m' -> completes_to m' m'.
Proof.
  intros H w. pose proof (completes_to_completed _ _ H) as ->.
  destruct (H empty_world) as [Ho _]. revert Ho.
  destruct m as [[[ti de co pm] A]|[[ti de co pm] h rt]].
  - intros _. split; reflexivity.
  - unfold DynMilestone.complete, DynMilestone.dispatch,
      HourlyMilestone.complete. run.
    destruct (dle h dzero); run; [discriminate|]. intros _. split; reflexivity.
Qed.

Lemma amount_due_fun (m : DynMilestone.t) (a1 a2 : double) :
  amount_due m a1 -> amount_due m a2 -> a1 = a2.
Proof.
  intros H1 H2. specialize (H1 empty_world). rewrite (H2 empty_world) in H1.
  congruence.
Qed.

Lemma payment_type_label (pay : Payment.t) (ty : string) :
  payment_type pay ty -> ty = label_of pay.
Proof.
  intros H. specialize (H empty_world). unfold Payment.getPaymentType in H.
  destruct pay; run; congruence.
Qed.

Lemma completes_or_fails (m m' : DynMilestone.t) :
  completes_to m m' ->
  (forall w, outcome_of (DynMilestone.complete (m, w))
             = Raise InvalidHoursException) ->
  False.
Proof.
  intros H1 H2. destruct (H1 empty_world) as [Ho _].
  rewrite (H2 empty_world) in Ho. discriminate.
Qed.

(** The run when completion fails. *)
Lemma workflow_run_unfinished (p : Project.t) (w : World) (m : DynMilestone.t)
    r o w' :
  workflow_run p w r o w' ->
  Project.client p <> None -> Project.freelancer p <> None ->
  Project.milestone p = Some m ->
  Milestone.paymentMethod (DynMilestone.base m) <> None ->
  (forall w0, outcome_of (DynMilestone.complete (m, w0))
              = Raise InvalidHoursException) ->
  r = Raise InvalidHoursException /\ o = p /\ console_only w w'.
Proof.
  intros Hrun Hc Hf Hm Hpay Hfail.
  inversion Hrun; subst; try (replace m0 with m in * by congruence);
    try (exfalso; eapply completes_or_fails; eassumption);
    try tauto; try congruence.
  intuition congruence.
Qed.

(** The run when completion succeeds, by the amount, the logger and the
    file. *)
Lemma workflow_run_finished (p : Project.t) (w : World)
    (m m' : DynMilestone.t) (pay : Payment.t) (a : double) r o w' :
  workflow_run p w r o w' ->
  Project.client p <> None -> Project.freelancer p <> None ->
  Project.milestone p = Some m ->
  Milestone.paymentMethod (DynMilestone.base m) = Some pay ->
  completes_to m m' -> amount_due m' a ->
  o = Project.set_milestone p m' /\
  (dle a dzero = true ->
   r = Raise PaymentFailureException /\ console_only w w') /\
  (dle a dzero = false -> Project.logger p = None ->
   r = Crash (NullDereference ptr_logger) /\ paid_only w w') /\
  (dle a dzero = false ->
   forall lg, Project.logger p = Some lg ->
     cerr w' = cerr w /\
     calls w' = calls w ++
                [Call_processPayment;
                 Call_logPaymentReceipt
                   (Milestone.title (DynMilestone.base m)) a (label_of pay)] /\
     (Logger.logFileName lg ∈ unwritable w ->
      r = Raise (runtime_error "Unable to open log file") /\
      files w' = files w) /\
     (Logger.logFileName lg ∉ unwritable w ->
      r = Normal tt /\
      files w' = <[Logger.logFileName lg :=
                     default [] (files w !! Logger.logFileName lg)
                     ++ Logger.receipt
                          (Milestone.title (DynMilestone.base m)) a
                          (label_of pay)]> (files w))).
Proof.
  intros Hrun Hc Hf Hm Hpay Hco Ha.
  pose proof (completes_to_completed _ _ Hco) as ->.
  inversion Hrun; subst;
    try (replace m0 with m in * by congruence);
    try (exfalso; eapply completes_or_fails; eassumption);
    try (intuition congruence);
    repeat match goal with
      | H : completes_to m ?x |- _ =>
          apply completes_to_completed in H; subst x
      | H : payment_type _ _ |- _ => apply payment_type_label in H; subst
      end;
    match goal with
    | H : amount_due _ ?x |- _ => pose proof (amount_due_fun _ _ _ H Ha) as ->
    end;
    replace pay0 with pay in * by congruence.
  all: split; [reflexivity|].
  all: repeat split; try congruence; try tauto; intros;
    try (replace lg0 with lg in * by congruence); try congruence; try tauto.
  all: match goal with
       | H : console_only _ _ |- _ => destruct H as (? & ? & ? & ?)
       | H : paid_only _ _ |- _ => destruct H as (? & ? & ? & ?)
       end; assumption.
Qed.

Lemma fixed_completes (f : FixedPriceMilestone.t) :
  completes_to (DynMilestone.Fixed f) (completed (DynMilestone.Fixed f)) /\
  amount_due (completed (DynMilestone.Fixed f))
    (FixedPriceMilestone.fixedAmount f).
Proof.
  destruct f as [[ti de co pm] A]. split; intros w; [split|]; reflexivity.
Qed.

Lemma hourly_completes (h : HourlyMilestone.t) :
  dle (HourlyMilestone.hoursWorked h) dzero = false ->
  completes_to (DynMilestone.Hourly h) (completed (DynMilestone.Hourly h)) /\
  amount_due (completed (DynMilestone.Hourly h))
    (dmul (HourlyMilestone.hoursWorked h) (HourlyMilestone.hourlyRate h)).
Proof.
  destruct h as [[ti de co pm] hr rt].
  cbn [HourlyMilestone.hoursWorked HourlyMilestone.hourlyRate]. intros Hle.
  split; intros w; [|reflexivity].
  unfold DynMilestone.complete, DynMilestone.dispatch, HourlyMilestone.complete.
  run. rewrite Hle. run. split; reflexivity.
Qed.

Lemma hourly_fails (h : HourlyMilestone.t) (w : World) :
  dle (HourlyMilestone.hoursWorked h) dzero = true ->
  outcome_of (DynMilestone.complete (DynMilestone.Hourly h, w))
  = Raise InvalidHoursException.
Proof.
  destruct h as [[ti de co pm] hr rt].
  cbn [HourlyMilestone.hoursWorked HourlyMilestone.hourlyRate]. intros Hle.
  unfold DynMilestone.complete, DynMilestone.dispatch, HourlyMilestone.complete.
  run. rewrite Hle. run. reflexivity.
Qed.

(** The run of the [try] block, with its three projections named. *)
Lemma workflow_run_of (p : Project.t) (w : World) :
  workflow_run p w (outcome_of (Project.workflow (p, w)))
    (object_of (Project.workflow (p, w)))
    (world_of (Project.workflow (p, w))).
Proof. exact (workflow_run_sound p w). Qed.

(** X6. The workflow on a fixed-price milestone of amount [A] (parties and
    payment object present) never raises [InvalidHoursException] and always
    leaves the milestone completed.  If [A <= 0] it raises
    [PaymentFailureException] with no payment processed and no file
    changed.  Otherwise the payment is processed and the logger is called
    with the title, [A] and the payment's label: the receipt is appended
    when the file can be opened, and the logger's [runtime_error] is raised
    with no file changed when it cannot. *)
Theorem fixed_price_run (p : Project.t) (w : World)
    (f : FixedPriceMilestone.t) (pay : Payment.t) (lg : Logger.t) :
  Project.client p <> None -> Project.freelancer p <> None ->
  Project.milestone p = Some (DynMilestone.Fixed f) ->
  Milestone.paymentMethod (FixedPriceMilestone.base f) = Some pay ->
  Project.logger p = Some lg ->
  let r := Project.workflow (p, w) in
  let A := FixedPriceMilestone.fixedAmount f in
  let title := Milestone.title (FixedPriceMilestone.base f) in
  object_of r = Project.set_milestone p (completed (DynMilestone.Fixed f)) /\
  (dle A dzero = true ->
   outcome_of r = Raise PaymentFailureException /\
   calls (world_of r) = calls w /\ files (world_of r) = files w) /\
  (dle A dzero = false ->
   calls (world_of r)
   = calls w ++ [Call_processPayment;
                 Call_logPaymentReceipt title A (label_of pay)] /\
   (Logger.logFileName lg ∉ unwritable w ->
    outcome_of r = Normal tt /\
    appended (Logger.logFileName lg)
      (Logger.receipt title A (label_of pay)) w (world_of r)) /\
   (Logger.logFileName lg ∈ unwritable w ->
    outcome_of r = Raise (runtime_error "Unable to open log file") /\
    files (world_of r) = files w)).
Proof.
  intros Hc Hf Hm Hpay Hlg r A title. subst r A title.
  destruct (fixed_completes f) as [Hco Ha].
  destruct (workflow_run_finished p w _ _ pay _ _ _ _ (workflow_run_of p w)
              Hc Hf Hm Hpay Hco Ha) as (Ho & Hfail & _ & Hpaid).
  split; [exact Ho|]. split.
  - intros Hle. destruct (Hfail Hle) as [-> (_ & ? & _ & ?)]. auto.
  - intros Hle. destruct (Hpaid Hle lg Hlg) as (_ & Hcalls & Hbad & Hgood).
    split; [exact Hcalls|]. split; intros Hin.
    + destruct (Hgood Hin) as [-> Hfiles]. split; [reflexivity|].
      apply appended_insert, Hfiles.
    + destruct (Hbad Hin) as [-> Hfiles]. auto.
Qed.

Lemma fixed_price_run_witness :
  outcome_of (Project.workflow (demo1, empty_world)) = Normal tt /\
  calls (world_of (Project.workflow (demo1, empty_world)))
  = [Call_processPayment;
     Call_logPaymentReceipt "Website" 2500%float "Escrow"].
Proof.
  destruct (fixed_price_run demo1 empty_world fixedMilestone
              (Payment.Escrow 2500%float) (Logger.mk "payment_receipts.txt")
              ltac:(discriminate) ltac:(discriminate) eq_refl eq_refl eq_refl)
    as (_ & _ & Hpos).
  destruct Hpos as (Hcalls & Hgood & _); [reflexivity|].
  destruct Hgood as [Ho _]; [apply not_elem_of_empty|].
  split; [exact Ho|exact Hcalls].
Defined.

(** X7. The workflow on an hourly milestone with hours [h] and rate [r]
    (parties and payment object present).  If [h <= 0] it raises
    [InvalidHoursException] and leaves the project as it was, the milestone
    not completed by this run.  Otherwise the milestone is left completed:
    if [h * r <= 0] (a rate that is zero or negative) the run raises
    [PaymentFailureException]; else the payment is processed and the logger
    is called with the amount [h * r]. *)
Theorem hourly_run (p : Project.t) (w : World) (hm : HourlyMilestone.t)
    (pay : Payment.t) (lg : Logger.t) :
  Project.client p <> None -> Project.freelancer p <> None ->
  Project.milestone p = Some (DynMilestone.Hourly hm) ->
  Milestone.paymentMethod (HourlyMilestone.base hm) = Some pay ->
  Project.logger p = Some lg ->
  let r := Project.workflow (p, w) in
  let h := HourlyMilestone.hoursWorked hm in
  let a := dmul h (HourlyMilestone.hourlyRate hm) in
  let title := Milestone.title (HourlyMilestone.base hm) in
  (dle h dzero = true ->
   outcome_of r = Raise InvalidHoursException /\ object_of r = p /\
   calls (world_of r) = calls w /\ files (world_of r) = files w) /\
  (dle h dzero = false ->
   object_of r = Project.set_milestone p (completed (DynMilestone.Hourly hm))
   /\
   (dle a dzero = true ->
    outcome_of r = Raise PaymentFailureException /\
    calls (world_of r) = calls w /\ files (world_of r) = files w) /\
   (dle a dzero = false ->
    calls (world_of r)
    = calls w ++ [Call_processPayment;
                  Call_logPaymentReceipt title a (label_of pay)] /\
    (Logger.logFileName lg ∉ unwritable w ->
     outcome_of r = Normal tt /\
     appended (Logger.logFileName lg)
       (Logger.receipt title a (label_of pay)) w (world_of r)) /\
    (Logger.logFileName lg ∈ unwritable w ->
     outcome_of r = Raise (runtime_error "Unable to open log file") /\
     files (world_of r) = files w))).
Proof.
  intros Hc Hf Hm Hpay Hlg r h a title. subst r h a title.
  assert (Milestone.paymentMethod
            (DynMilestone.base (DynMilestone.Hourly hm)) <> None) as Hpm
    by (cbn; congruence).
  split; intros Hh.
  - destruct (workflow_run_unfinished p w _ _ _ _ (workflow_run_of p w)
                Hc Hf Hm Hpm (fun w0 => hourly_fails hm w0 Hh))
      as (-> & -> & _ & ? & _ & ?). auto.
  - destruct (hourly_completes hm Hh) as [Hco Ha].
    destruct (workflow_run_finished p w _ _ pay _ _ _ _ (workflow_run_of p w)
                Hc Hf Hm Hpay Hco Ha) as (Ho & Hfail & _ & Hpaid).
    split; [exact Ho|]. split.
    + intros Hle. destruct (Hfail Hle) as [-> (_ & ? & _ & ?)]. auto.
    + intros Hle. destruct (Hpaid Hle lg Hlg) as (_ & Hcalls & Hbad & Hgood).
      split; [exact Hcalls|]. split; intros Hin.
      * destruct (Hgood Hin) as [-> Hfiles]. split; [reflexivity|].
        apply appended_insert, Hfiles.
      * destruct (Hbad Hin) as [-> Hfiles]. auto.
Qed.

Lemma hourly_run_witness :
  outcome_of
    (Project.workflow
       (hourlyProject 8%float (Some (Logger.mk "payment_receipts.txt")),
        empty_world)) = Normal tt /\
  outcome_of
    (Project.workflow
       (hourlyProject 0%float (Some (Logger.mk "payment_receipts.txt")),
        empty_world)) = Raise InvalidHoursException.
Proof.
  split.
  - destruct (hourly_run
                (hourlyProject 8%float (Some (Logger.mk "payment_receipts.txt")))
                empty_world _ (Payment.Direct 0%float)
                (Logger.mk "payment_receipts.txt")
                ltac:(discriminate) ltac:(discriminate) eq_refl eq_refl
                eq_refl) as [_ Hpos].
    destruct Hpos as (_ & _ & Hpaid); [reflexivity|].
    destruct Hpaid as (_ & Hgood & _); [reflexivity|].
    destruct Hgood as [Ho _]; [apply not_elem_of_empty|]. exact Ho.
  - destruct (hourly_run
                (hourlyProject 0%float (Some (Logger.mk "payment_receipts.txt")))
                empty_world _ (Payment.Direct 0%float)
                (Logger.mk "payment_receipts.txt")
                ltac:(discriminate) ltac:(discriminate) eq_refl eq_refl
                eq_refl) as [Hzero _].
    destruct Hzero as [Ho _]; [reflexivity|]. exact Ho.
Defined.

(** ** The null checks *)

(** X8. The [try] block raises [NullPointerException] exactly when the
    client, the freelancer or the milestone is absent; it then has printed
    nothing and changed nothing, and [executeProjectWorkflow] returns with
    the one report on [cerr] as the only change. *)
Theorem null_pointer_exactly_when_absent (p : Project.t) (w : World) :
  (outcome_of (Project.workflow (p, w)) = Raise NullPointerException <->
   Project.client p = None \/ Project.freelancer p = None \/
   Project.milestone p = None) /\
  (outcome_of (Project.workflow (p, w)) = Raise NullPointerException ->
   Project.workflow (p, w) = (Raise NullPointerException, (p, w)) /\
   Project.executeProjectWorkflow (p, w)
   = (Normal tt, (p, put_cerr (error_report NullPointerException) w))).
Proof.
  pose proof (workflow_run_of p w) as Hrun.
  rewrite executeProjectWorkflow_run.
  destruct (Project.workflow (p, w)) as [r [o w']].
  unfold outcome_of, object_of, world_of in *. cbn [fst snd] in *.
  split; [split|]; intros H.
  - subst r. inversion Hrun. assumption.
  - inversion Hrun; subst; try reflexivity; intuition congruence.
  - subst r. inversion Hrun; subst. split; reflexivity.
Qed.

Lemma null_pointer_witness :
  Project.executeProjectWorkflow (noClientProject, empty_world)
  = (Normal tt,
     (noClientProject,
      put_cerr (error_report NullPointerException) empty_world)).
Proof.
  destruct (null_pointer_exactly_when_absent noClientProject empty_world)
    as [Hiff Hstate].
  apply Hstate, Hiff. left. reflexivity.
Defined.

(** X9. The null check does not cover the milestone's payment object: with
    the three checked pointers present and [paymentMethod] null, the run
    crashes on the null dereference inside [displayMilestone], before
    [complete]: the project (its milestone still as it was), the files,
    [cerr] and the recorded calls are unchanged, and no exception is raised
    or reported. *)
Theorem null_payment_method_crashes (p : Project.t) (w : World)
    (m : DynMilestone.t) :
  Project.client p <> None -> Project.freelancer p <> None ->
  Project.milestone p = Some m ->
  Milestone.paymentMethod (DynMilestone.base m) = None ->
  let r := Project.executeProjectWorkflow (p, w) in
  outcome_of r = Crash (NullDereference ptr_paymentMethod) /\
  object_of r = p /\ console_only w (world_of r).
Proof.
  intros Hc Hf Hm Hpm r. subst r.
  pose proof (workflow_run_of p w) as Hrun.
  rewrite executeProjectWorkflow_run.
  destruct (Project.workflow (p, w)) as [r [o w']].
  unfold outcome_of, object_of, world_of in *. cbn [fst snd] in *.
  inversion Hrun; subst; cbn [fst snd];
    try (replace m0 with m in * by congruence); try congruence;
    try (intuition congruence).
Qed.

Lemma null_payment_method_witness :
  outcome_of
    (Project.executeProjectWorkflow
       (Project.mk "P" (Project.client demo1) (Project.freelancer demo1)
          (Some (DynMilestone.Fixed
                   (FixedPriceMilestone.new "T" "D" None 10%float)))
          (Project.logger demo1),
        empty_world))
  = Crash (NullDereference ptr_paymentMethod).
Proof.
  apply (null_payment_method_crashes _ empty_world
           (DynMilestone.Fixed (FixedPriceMilestone.new "T" "D" None 10%float)));
    try discriminate; reflexivity.
Defined.

(** ** What a run leaves of the project *)

(** X10. [executeProjectWorkflow] changes the project in one way at most:
    the milestone's completed flag is set.  Name, client, freelancer and
    logger are as before, and the milestone is either untouched or the same
    milestone completed.  There is no rollback: after a
    [PaymentFailureException] or a failed log the milestone is left
    completed, although nothing was paid or nothing was logged. *)
Theorem workflow_only_completes (p : Project.t) (w : World) :
  let body := Project.workflow (p, w) in
  let p' := object_of (Project.executeProjectWorkflow (p, w)) in
  Project.projectName p' = Project.projectName p /\
  Project.client p' = Project.client p /\
  Project.freelancer p' = Project.freelancer p /\
  Project.logger p' = Project.logger p /\
  (Project.milestone p' = Project.milestone p \/
   Project.milestone p' = option_map completed (Project.milestone p)) /\
  (outcome_of body = Raise PaymentFailureException \/
   outcome_of body = Raise (runtime_error "Unable to open log file") ->
   Project.milestone p' = option_map completed (Project.milestone p) /\
   forall m', Project.milestone p' = Some m' ->
              Milestone.isCompleted (DynMilestone.base m') = true).
Proof.
  intros body p'. subst body p'.
  pose proof (workflow_run_of p w) as Hrun.
  rewrite executeProjectWorkflow_run.
  assert (forall m, Milestone.isCompleted (DynMilestone.base (completed m))
                    = true) as Hdone.
  { intros [[[ti de co pm] A]|[[ti de co pm] h rt]]; reflexivity. }
  destruct (Project.workflow (p, w)) as [r [o w']].
  unfold outcome_of, object_of, world_of in *. cbn [fst snd] in *.
  inversion Hrun; subst; cbn [fst snd object_of];
    repeat match goal with
      | H : completes_to _ ?x |- _ =>
          apply completes_to_completed in H; subst x
      end;
    match goal with H : Project.milestone p = _ |- _ => try rewrite H | _ => idtac end;
    cbn; repeat split; auto;
    try (match goal with
         | H : _ = Raise PaymentFailureException \/ _ |- _ =>
             destruct H; discriminate
         end);
    intros m' [= <-]; apply Hdone.
Qed.

(** ** Running the workflow again *)

Section KeepsUnwritable.
Context {T : Type}.

Lemma ku_ret {A} (a : A) : keeps_unwritable (mret a : Method T A).
Proof. intros s. reflexivity. Qed.

Lemma ku_throw {A} (e : exn) : keeps_unwritable (throw e : Method T A).
Proof. intros s. reflexivity. Qed.

Lemma ku_this : keeps_unwritable (this : Method T T).
Proof. intros s. reflexivity. Qed.

Lemma ku_world : keeps_unwritable (world : Method T World).
Proof. intros s. reflexivity. Qed.

Lemma ku_assign (f : T -> T) : keeps_unwritable (assign f).
Proof. intros s. reflexivity. Qed.

Lemma ku_effect (g : World -> World) :
  (forall w, unwritable (g w) = unwritable w) ->
  keeps_unwritable (effect g : Method T unit).
Proof. intros H s. apply H. Qed.

Lemma ku_to_cout (l : stream) : keeps_unwritable (to_cout l : Method T unit).
Proof. intros s. reflexivity. Qed.

Lemma ku_bind {A B} (f : Method T A) (k : A -> Method T B) :
  keeps_unwritable f -> (forall a, keeps_unwritable (k a)) ->
  keeps_unwritable (f ≫= k).
Proof.
  intros Hf Hk s. specialize (Hf s). unfold mbind, M_bind.
  destruct (f s) as [[a|e|c] s']; cbn in *; try exact Hf.
  rewrite (Hk a s'). exact Hf.
Qed.

Lemma ku_if {A} (b : bool) (f g : Method T A) :
  keeps_unwritable f -> keeps_unwritable g ->
  keeps_unwritable (if b then f else g).
Proof. destruct b; auto. Qed.

Lemma ku_arrow {U A} name (get : T -> option U) set (f : Method U A) :
  keeps_unwritable f -> keeps_unwritable (arrow name get set f).
Proof.
  intros Hf [o w]. unfold arrow. cbn [fst snd].
  destruct (get o) as [u|]; [|reflexivity].
  specialize (Hf (u, w)). destruct (f (u, w)) as [r [u' w']]. exact Hf.
Qed.

End KeepsUnwritable.

Create HintDb ku.
#[local] Hint Resolve ku_ret ku_throw ku_this ku_world ku_assign ku_to_cout
  ku_bind ku_if ku_arrow : ku.

Lemma ku_dispatch {A} (f : Method FixedPriceMilestone.t A)
    (h : Method HourlyMilestone.t A) :
  keeps_unwritable f -> keeps_unwritable h ->
  keeps_unwritable (DynMilestone.dispatch f h).
Proof.
  intros Hf Hh [[m|m] w]; unfold DynMilestone.dispatch; cbn [fst snd].
  - specialize (Hf (m, w)). destruct (f (m, w)) as [r [m' w']]. exact Hf.
  - specialize (Hh (m, w)). destruct (h (m, w)) as [r [m' w']]. exact Hh.
Qed.

Lemma ku_inherited {A} (f : Method Milestone.t A) :
  keeps_unwritable f -> keeps_unwritable (DynMilestone.inherited f).
Proof.
  intros Hf [m w]. unfold DynMilestone.inherited. cbn [fst snd].
  specialize (Hf (DynMilestone.base m, w)).
  destruct (f (DynMilestone.base m, w)) as [r [b' w']]. exact Hf.
Qed.

#[local] Hint Resolve ku_dispatch ku_inherited : ku.

Lemma ku_displayInfo : keeps_unwritable User.displayInfo.
Proof.
  unfold User.displayInfo. apply ku_bind; [apply ku_this|].
  intros [n e c|n e s r]; apply ku_to_cout.
Qed.

Lemma ku_getPaymentType : keeps_unwritable Payment.getPaymentType.
Proof.
  unfold Payment.getPaymentType. apply ku_bind; [apply ku_this|].
  intros [a|a]; apply ku_ret.
Qed.

Lemma ku_processPayment : keeps_unwritable Payment.processPayment.
Proof.
  unfold Payment.processPayment.
  apply ku_bind; [apply ku_effect; reflexivity|]. intros _.
  apply ku_bind; [apply ku_this|]. intros [a|a]; auto with ku.
Qed.

#[local] Hint Resolve ku_displayInfo ku_getPaymentType ku_processPayment : ku.

Lemma ku_displayMilestone : keeps_unwritable DynMilestone.displayMilestone.
Proof.
  unfold DynMilestone.displayMilestone, Milestone.displayMilestone.
  auto 20 with ku.
Qed.

Lemma ku_calculatePayment : keeps_unwritable DynMilestone.calculatePayment.
Proof.
  unfold DynMilestone.calculatePayment, FixedPriceMilestone.calculatePayment,
    HourlyMilestone.calculatePayment.
  auto 20 with ku.
Qed.

#[local] Hint Resolve ku_calculatePayment ku_displayMilestone : ku.

Lemma ku_complete : keeps_unwritable DynMilestone.complete.
Proof.
  unfold DynMilestone.complete, FixedPriceMilestone.complete,
    HourlyMilestone.complete.
  apply ku_dispatch.
  - unfold FixedPriceMilestone.calculatePayment. auto 20 with ku.
  - unfold HourlyMilestone.calculatePayment. auto 20 with ku.
Qed.

Lemma ku_logPaymentReceipt (t : string) (a : double) (ty : string) :
  keeps_unwritable (Logger.logPaymentReceipt t a ty).
Proof.
  unfold Logger.logPaymentReceipt.
  repeat (apply ku_bind; [try (apply ku_effect; reflexivity);
                          auto with ku|intros ?]).
  apply ku_to_cout.
Qed.

#[local] Hint Resolve ku_complete ku_logPaymentReceipt : ku.

Lemma workflow_keeps_unwritable : keeps_unwritable Project.workflow.
Proof.
  unfold Project.workflow, Project.client_arrow, Project.freelancer_arrow,
    Project.milestone_arrow, Project.logger_arrow,
    DynMilestone.paymentMethod_arrow, DynMilestone.getTitle,
    Milestone.getTitle.
  auto 40 with ku.
Qed.

Lemma set_milestone_fields (p : Project.t) (m : DynMilestone.t) :
  Project.client (Project.set_milestone p m) = Project.client p /\
  Project.freelancer (Project.set_milestone p m) = Project.freelancer p /\
  Project.logger (Project.set_milestone p m) = Project.logger p /\
  Project.milestone (Project.set_milestone p m) = Some m /\
  Project.set_milestone (Project.set_milestone p m) m
  = Project.set_milestone p m.
Proof. destruct p. cbn. auto. Qed.

(** X11. Nothing guards against a second run.  When a run of the [try]
    block has returned normally, a second run on the project as the first
    left it (milestone already completed) returns normally too, with the
    project unchanged: the payment is processed again and a second receipt
    with the same title, amount and type is appended after the first. *)
Theorem workflow_runs_again (p p' : Project.t) (w w' : World) :
  Project.workflow (p, w) = (Normal tt, (p', w')) ->
  exists m lg a ty w'',
    Project.milestone p = Some m /\ Project.logger p = Some lg /\
    let title := Milestone.title (DynMilestone.base m) in
    calls w' = calls w ++ [Call_processPayment;
                           Call_logPaymentReceipt title a ty] /\
    Project.workflow (p', w') = (Normal tt, (p', w'')) /\
    calls w'' = calls w' ++ [Call_processPayment;
                             Call_logPaymentReceipt title a ty] /\
    appended (Logger.logFileName lg)
      (Logger.receipt title a ty ++ Logger.receipt title a ty) w w''.
Proof.
  intros E.
  pose proof (workflow_run_of p w) as Hrun.
  pose proof (workflow_keeps_unwritable (p, w)) as Hun.
  rewrite E in Hrun, Hun. unfold outcome_of, object_of, world_of in Hrun, Hun.
  cbn [fst snd] in Hrun, Hun.
  inversion Hrun as [| | | | | |m pay m' a ty lg w0 Hc Hf Hm Hpay Hco Ha Hle
                             Hty Hlg Hin Hcerr Hfiles Hcalls]; subst.
  destruct (completes_to_keeps _ _ Hco) as [Hti Hpm]. rewrite Hpay in Hpm.
  apply payment_type_label in Hty. subst ty.
  destruct (set_milestone_fields p m') as (Sc & Sf & Sl & Sm & Si).
  set (p' := Project.set_milestone p m') in *.
  pose proof (workflow_run_of p' w') as Hrun2.
  destruct (workflow_run_finished p' w' m' m' pay a _ _ _ Hrun2)
    as (Ho & _ & _ & Hpaid); try assumption; try congruence.
  { exact (completes_to_again _ _ Hco). }
  destruct (Hpaid Hle lg) as (_ & Hcalls2 & _ & Hgood); [congruence|].
  destruct Hgood as [Hr Hfiles2]; [rewrite Hun; exact Hin|].
  exists m, lg, a, (label_of pay),
    (world_of (Project.workflow (p', w'))).
  split; [exact Hm|]. split; [exact Hlg|]. cbn zeta.
  split; [exact Hcalls|]. split; [|split].
  - destruct (Project.workflow (p', w')) as [r2 [o2 w2]].
    unfold outcome_of, object_of, world_of in *. cbn [fst snd] in *.
    subst r2 o2. rewrite Si. reflexivity.
  - rewrite Hcalls2, Hti. reflexivity.
  - eapply appended_trans; apply appended_insert.
    + exact Hfiles.
    + rewrite Hfiles2, Hti. reflexivity.
Qed.

Lemma workflow_runs_again_witness :
  exists a ty w'',
    Project.workflow demo1_after = (Normal tt, (fst demo1_after, w'')) /\
    calls w'' = calls (snd demo1_after)
                ++ [Call_processPayment;
                    Call_logPaymentReceipt "Website" a ty].
Proof.
  destruct (workflow_runs_again demo1 (fst demo1_after) empty_world
              (snd demo1_after))
    as (m & lg & a & ty & w'' & Hm & _ & _ & E2 & Hc2 & _).
  { vm_compute. reflexivity. }
  vm_compute in Hm. injection Hm as <-.
  exists a, ty, w''. split; [exact E2|exact Hc2].
Defined.

(** ** Not-a-number *)

Lemma is_nan_Prim2SF (h : double) :
  PrimFloat.is_nan h = true -> Prim2SF h = S754_nan.
Proof.
  unfold PrimFloat.is_nan. rewrite FloatAxioms.eqb_spec. unfold SFeqb.
  destruct (Prim2SF h) as [s|s| |s m e]; try reflexivity; cbn.
  - discriminate.
  - destruct s; discriminate.
  - rewrite Z.compare_refl.
    change (Pos.compare_cont Eq m m) with (Pos.compare m m).
    rewrite Pos.compare_refl. destruct s; discriminate.
Qed.

Lemma nan_fails_comparisons (h : double) :
  PrimFloat.is_nan h = true -> dlt h dzero = false /\ dle h dzero = false.
Proof.
  intros H. apply is_nan_Prim2SF in H. unfold dlt, dle.
  rewrite ltb_spec, leb_spec, H. split; reflexivity.
Qed.

Lemma nan_times (h r : double) :
  PrimFloat.is_nan h = true -> PrimFloat.is_nan (dmul h r) = true.
Proof.
  intros H. apply is_nan_Prim2SF in H.
  unfold PrimFloat.is_nan, dmul. rewrite FloatAxioms.eqb_spec, mul_spec, H. reflexivity.
Qed.

(** X12. No guard rejects a NaN.  [setHoursWorked] stores NaN hours (NaN is
    not [< 0]), [complete] then succeeds (NaN is not [<= 0]), and
    [calculatePayment] returns a NaN amount, which is not [<= 0] either, so
    that the workflow's own check of the amount lets it through. *)
Theorem nan_hours_pass_every_guard (m : HourlyMilestone.t) (h : double)
    (w : World) :
  PrimFloat.is_nan h = true ->
  let r1 := HourlyMilestone.setHoursWorked h (m, w) in
  let r2 := HourlyMilestone.complete (snd r1) in
  let r3 := HourlyMilestone.calculatePayment (snd r2) in
  outcome_of r1 = Normal tt /\ outcome_of r2 = Normal tt /\
  exists a, outcome_of r3 = Normal a /\ PrimFloat.is_nan a = true /\
            dle a dzero = false.
Proof.
  intros Hnan r1 r2 r3. subst r1 r2 r3.
  destruct (nan_fails_comparisons h Hnan) as [Hlt Hle].
  pose proof (nan_times h (HourlyMilestone.hourlyRate m) Hnan) as Hmul.
  destruct (nan_fails_comparisons _ Hmul) as [_ Hle'].
  unfold HourlyMilestone.setHoursWorked, HourlyMilestone.complete,
    HourlyMilestone.calculatePayment.
  destruct m as [[ti de co pm] h0 rt].
  cbn [HourlyMilestone.hourlyRate] in *. run.
  rewrite Hlt. run. rewrite Hle. run.
  split; [reflexivity|]. split; [reflexivity|].
  exists (dmul h rt). auto.
Qed.

Lemma nan_hours_witness :
  outcome_of
    (HourlyMilestone.complete
       (snd (HourlyMilestone.setHoursWorked PrimFloat.nan
               (badMilestone, empty_world))))
  = Normal tt.
Proof.
  apply (nan_hours_pass_every_guard badMilestone PrimFloat.nan empty_world).
  reflexivity.
Defined.

Lemma workflow_only_completes_witness :
  Project.milestone
    (object_of (Project.executeProjectWorkflow
                  (zeroPriceProject, empty_world)))
  = option_map completed (Project.milestone zeroPriceProject).
Proof.
  destruct (workflow_only_completes zeroPriceProject empty_world)
    as (_ & _ & _ & _ & _ & H).
  apply H. left. reflexivity.
Defined.

(** * The free functions *)

(** The workflow on a project whose five pointers are all set cannot crash,
    and [executeProjectWorkflow] then returns normally. *)
Lemma wired_project_returns (p : Project.t) (w : World) (m : DynMilestone.t) :
  Project.client p <> None -> Project.freelancer p <> None ->
  Project.milestone p = Some m ->
  Milestone.paymentMethod (DynMilestone.base m) <> None ->
  Project.logger p <> None ->
  outcome_of (Project.executeProjectWorkflow (p, w)) = Normal tt.
Proof.
  intros Hc Hf Hm Hpm Hlg.
  pose proof (workflow_run_of p w) as Hrun.
  rewrite executeProjectWorkflow_run.
  destruct (Project.workflow (p, w)) as [r [o w']].
  unfold outcome_of, object_of, world_of in *. cbn [fst snd] in *.
  inversion Hrun; subst; cbn; try reflexivity;
    try (replace m0 with m in * by congruence); congruence.
Qed.

Lemma setHoursWorked_rejects (h : double) (m : HourlyMilestone.t) (w : World) :
  dlt h dzero = true ->
  HourlyMilestone.setHoursWorked h (m, w) = (Raise InvalidHoursException, (m, w)).
Proof.
  intros H. unfold HourlyMilestone.setHoursWorked. run. rewrite H. reflexivity.
Qed.

(** X13. [runHardcodedDemos] returns normally in every world.  Its first
    demo processes one payment and calls the logger once, with "Website",
    2500 and "Escrow": the receipt is appended when the file can be opened,
    otherwise no file changes and the failure is reported on [cerr].  Its
    second demo stops at [setHoursWorked(-5.0)]: the exception is caught and
    announced on [cout] as the last line, and the workflow of the second
    project is never run (no further call, file or [cerr] change). *)
Theorem runHardcodedDemos_spec (w : World) :
  let r := runHardcodedDemos w in
  let w' := snd r in
  fst r = Normal tt /\
  calls w' = calls w ++ [Call_processPayment;
                         Call_logPaymentReceipt "Website" 2500%float "Escrow"]
  /\
  (exists before,
     cout w' = before ++ [Str "Caught expected exception: ";
                          Str (what InvalidHoursException); Endl]) /\
  ("payment_receipts.txt" ∉ unwritable w ->
   appended "payment_receipts.txt"
     (Logger.receipt "Website" 2500%float "Escrow") w w' /\
   cerr w' = cerr w) /\
  ("payment_receipts.txt" ∈ unwritable w ->
   files w' = files w /\
   cerr w' = cerr w ++ error_report (runtime_error "Unable to open log file")).
Proof.
  intros r w'. subst w' r. unfold runHardcodedDemos.
  set (w0 := put_cout [Str (nl +:+ "--- Demo 1: Fixed Price ---"); Endl] w).
  set (p1 := Project.mk "E-Commerce Website" _ _ _ _).
  pose proof (workflow_run_of p1 w0) as Hrun.
  pose proof (executeProjectWorkflow_run p1 w0) as Hexec.
  destruct (fixed_completes
              (FixedPriceMilestone.new "Website" "Full stack"
                 (Some (Payment.Escrow 2500%float)) 2500%float))
    as [Hco Ha].
  destruct (workflow_run_finished p1 w0 _ _ (Payment.Escrow 2500%float) _
              _ _ _ Hrun ltac:(discriminate) ltac:(discriminate) eq_refl
              eq_refl Hco Ha) as (_ & _ & _ & Hpaid).
  destruct (Hpaid eq_refl (Logger.mk "payment_receipts.txt") eq_refl)
    as (Hcerr & Hcalls & Hbad & Hgood).
  cbn [Logger.logFileName label_of Milestone.title DynMilestone.base
       FixedPriceMilestone.base FixedPriceMilestone.new Milestone.new
       FixedPriceMilestone.fixedAmount] in *.
  change (unwritable w0) with (unwritable w) in *.
  change (calls w0) with (calls w) in *.
  change (cerr w0) with (cerr w) in *.
  change (files w0) with (files w) in *.
  unfold mbind, M_bind, print, invoke, try_catch_as.
  fold w0. destruct (Project.executeProjectWorkflow (p1, w0)) as [r1 [o1 w1]].
  destruct (Project.workflow (p1, w0)) as [rb [ob wb]].
  unfold outcome_of, object_of, world_of in *. cbn [fst snd] in *.
  destruct (bool_decide ("payment_receipts.txt" ∈ unwritable w)) eqn:E.
  - apply bool_decide_eq_true in E. destruct (Hbad E) as [-> Hfiles].
    injection Hexec as -> -> ->. clear Hrun Hpaid Hco Ha Hbad Hgood.
    rewrite setHoursWorked_rejects by reflexivity. run.
    split; [reflexivity|]. split; [exact Hcalls|]. split; [eauto|].
    split; intros H; [contradiction|]. rewrite Hcerr. auto.
  - apply bool_decide_eq_false in E. destruct (Hgood E) as [-> Hfiles].
    injection Hexec as -> -> ->. clear Hrun Hpaid Hco Ha Hbad Hgood.
    rewrite setHoursWorked_rejects by reflexivity. run.
    split; [reflexivity|]. split; [exact Hcalls|]. split; [eauto|].
    split; intros H; [|contradiction].
    split; [apply appended_insert; exact Hfiles|exact Hcerr].
Qed.

Lemma runHardcodedDemos_witness :
  files (snd (runHardcodedDemos empty_world)) !! "payment_receipts.txt"
  = Some (Logger.receipt "Website" 2500%float "Escrow").
Proof.
  destruct (runHardcodedDemos_spec empty_world) as (_ & _ & _ & Hgood & _).
  destruct Hgood as [[Hfile _] _]; [apply not_elem_of_empty|]. exact Hfile.
Defined.

(** ** The interactive functions *)

Ltac irun :=
  repeat (cbn -[dle dlt dmul dzero PrimFloat.leb PrimFloat.ltb PrimFloat.mul
                Z.eqb Project.executeProjectWorkflow runHardcodedDemos
                HourlyMilestone.setHoursWorked]
          in *;
          unfold mbind, mret, Interactive_bind, Interactive_ret, say, getline,
            clearInput, extract_double, extract_int, value_of, run_program,
            try_catch_all, invoke in *).

(** Name what each input operation delivers. *)
Ltac typed :=
  repeat match goal with
    | |- context [cin_getline ?c] =>
        let l := fresh "line" in let c' := fresh "c" in
        destruct (cin_getline c) as [l c'] eqn:?
    | |- context [cin_double ?c] =>
        let v := fresh "v" in let c' := fresh "c" in
        destruct (cin_double c) as [v c'] eqn:?
    | |- context [cin_int ?c] =>
        let v := fresh "v" in let c' := fresh "c" in
        destruct (cin_int c) as [v c'] eqn:?
    end.

(** Run the function on the input named by [typed]. *)
Ltac replay :=
  repeat (irun;
          match goal with
          | E : cin_getline ?c = _ |- context [cin_getline ?c] => rewrite E
          | E : cin_double ?c = _ |- context [cin_double ?c] => rewrite E
          | E : cin_int ?c = _ |- context [cin_int ?c] => rewrite E
          end);
  irun.

(** Name the project and the world of the call of the workflow. *)
Ltac at_workflow p w1 :=
  match goal with
  | |- context [Project.executeProjectWorkflow (?P, ?W)] =>
      set (p := P); set (w1 := W)
  end.

Lemma setHoursWorked_accepts (h : double) (m : HourlyMilestone.t) (w : World) :
  dlt h dzero = false ->
  HourlyMilestone.setHoursWorked h (m, w)
  = (Normal tt,
     (HourlyMilestone.mk (HourlyMilestone.base m) h
        (HourlyMilestone.hourlyRate m), w)).
Proof.
  intros E. unfold HourlyMilestone.setHoursWorked. run. rewrite E. reflexivity.
Qed.

Lemma prints_here (l c : stream) : prints l (c ++ l).
Proof. exists c, []. rewrite app_nil_r. reflexivity. Qed.

Lemma prints_app (l c l' : stream) : prints l c -> prints l (c ++ l').
Proof.
  intros (b & a & ->). exists b, (a ++ l'). rewrite <- !app_assoc. reflexivity.
Qed.

Lemma post_processPayment_notice (m : DynMilestone.t) (pay : Payment.t)
    (w : World) Q :
  Milestone.paymentMethod (DynMilestone.base m) = Some pay ->
  (forall w', cout w' = cout w ++ notice pay -> Q (Normal tt) m w') ->
  post Q (DynMilestone.paymentMethod_arrow Payment.processPayment (m, w)).
Proof.
  destruct m as [[[ti de co pm] A]|[[ti de co pm] h rt]]; cbn;
    intros -> H; destruct pay; apply H; cbn [notice];
    match goal with
    | |- _ = ?c ++ [?i1; ?i2; ?i3; ?i4; ?i5] =>
        change (c ++ [i1; i2; i3; i4; i5]) with (c ++ [i1; i2; i3] ++ [i4; i5])
    end; rewrite List.app_assoc; reflexivity.
Qed.

Lemma post_logPaymentReceipt_grows (lg : Logger.t) (title : string)
    (a : double) (ty : string) (w : World)
    (Q : outcome unit -> Logger.t -> World -> Prop) :
  (forall r w' l, cout w' = cout w ++ l -> Q r lg w') ->
  post Q (Logger.logPaymentReceipt title a ty (lg, w)).
Proof.
  intros H. destruct lg as [path]. unfold Logger.logPaymentReceipt, post.
  run. destruct (bool_decide (path ∈ unwritable w)); run.
  - apply (H _ _ []). cbn. rewrite app_nil_r. reflexivity.
  - eapply H. cbn. reflexivity.
Qed.

(** Once [processPayment] has run, its two lines stay on the console. *)
Lemma workflow_notice (p : Project.t) (w : World) (m : DynMilestone.t)
    (pay : Payment.t) :
  Project.client p <> None -> Project.freelancer p <> None ->
  Project.milestone p = Some m ->
  Milestone.paymentMethod (DynMilestone.base m) = Some pay ->
  post (fun _ _ w' => calls w' <> calls w -> prints (notice pay) (cout w'))
    (Project.workflow (p, w)).
Proof.
  intros Hc Hf Hm Hpay.
  destruct p as [name [c|] [f|] mo lg]; cbn in Hc, Hf, Hm; try congruence.
  subst mo. clear Hc Hf.
  set (p := Project.mk name (Some c) (Some f) (Some m) lg).
  pose proof (console_only_refl w) as F.
  assert (forall w', console_only w w' ->
            calls w' <> calls w -> prints (notice pay) (cout w')) as Hquiet.
  { intros w' (_ & _ & _ & E) Hn. contradiction. }
  unfold Project.workflow, Project.client_arrow, Project.freelancer_arrow,
    Project.milestone_arrow, Project.logger_arrow.
  apply post_bind, post_this. cbv beta iota.
  apply post_bind.
  cbn [is_null orb Project.client Project.freelancer Project.milestone p].
  apply post_ret. cbv beta iota.
  do 3 cout_step F.
  apply post_bind, (post_arrow _ _ _ _ _ _ c); [reflexivity|].
  apply post_displayInfo. frame F. change (Project.set_client p c) with p.
  apply post_bind, (post_arrow _ _ _ _ _ _ f); [reflexivity|].
  apply post_displayInfo. frame F. change (Project.set_freelancer p f) with p.
  do 2 cout_step F.
  apply post_bind, (post_arrow _ _ _ _ _ _ m); [reflexivity|].
  apply post_displayMilestone. frame F.
  change (Project.set_milestone p m) with p. rewrite Hpay.
  cout_step F.
  apply post_bind, (post_arrow _ _ _ _ _ _ m); [reflexivity|].
  apply post_complete; [intros m' | ]; frame F;
    [intros Hm' | intros Hfail; apply Hquiet, F].
  destruct (completes_to_keeps _ _ Hm') as [Hti Hpm]. rewrite Hpay in Hpm.
  set (p' := Project.set_milestone p m').
  apply post_bind, (post_arrow _ _ _ _ _ _ m'); [reflexivity|].
  apply post_calculatePayment. intros a Ha. cbv beta iota.
  change (Project.set_milestone p' m') with p'.
  apply post_bind.
  destruct (dle a dzero) eqn:Hle.
  { apply post_throw. apply Hquiet, F. }
  apply post_ret. cbv beta iota.
  apply post_bind, (post_arrow _ _ _ _ _ _ m'); [reflexivity|].
  apply (post_processPayment_notice m' pay _ _ Hpm). intros wp Hwp.
  cbv beta iota.
  assert (prints (notice pay) (cout wp)) as P
    by (rewrite Hwp; apply prints_here).
  clear Hwp F Hquiet.
  change (Project.set_milestone p' m') with p'.
  apply post_bind, (post_arrow _ _ _ _ _ _ m'); [reflexivity|].
  apply post_getTitle. cbv beta iota.
  change (Project.set_milestone p' m') with p'.
  apply post_bind, (post_arrow _ _ _ _ _ _ m'); [reflexivity|].
  apply (post_getPaymentType m' pay _ _ Hpm). intros ty Hty. cbv beta iota.
  change (Project.set_milestone p' m') with p'.
  apply post_bind.
  destruct lg as [lg|].
  2:{ apply post_arrow_null; [reflexivity|]. intros _. exact P. }
  apply (post_arrow _ _ _ _ _ _ lg); [reflexivity|].
  apply post_logPaymentReceipt_grows. intros r wl l Hl.
  assert (prints (notice pay) (cout wl)) as P'
    by (rewrite Hl; apply prints_app, P).
  destruct r as [[]|e|x]; cbv beta iota; try (intros _; exact P').
  intros _. apply prints_app, P'.
Qed.

(** [executeProjectWorkflow] on a project with every pointer set, when the
    milestone accepts completion. *)
Lemma wired_run (p : Project.t) (w : World) (m m' : DynMilestone.t)
    (pay : Payment.t) (a : double) (lg : Logger.t) :
  Project.client p <> None -> Project.freelancer p <> None ->
  Project.milestone p = Some m ->
  Milestone.paymentMethod (DynMilestone.base m) = Some pay ->
  Project.logger p = Some lg ->
  completes_to m m' -> amount_due m' a ->
  let r := Project.executeProjectWorkflow (p, w) in
  outcome_of r = Normal tt /\
  (dle a dzero = true -> reported PaymentFailureException w (world_of r)) /\
  (dle a dzero = false ->
   receipt_logged (Logger.logFileName lg)
     (Milestone.title (DynMilestone.base m)) a (label_of pay)
     w (world_of r) /\
   prints (notice pay) (cout (world_of r))).
Proof.
  intros Hc Hf Hm Hpay Hlg Hco Ha r. subst r.
  pose proof (workflow_notice p w m pay Hc Hf Hm Hpay) as Hn.
  pose proof (workflow_run_of p w) as Hrun.
  destruct (workflow_run_finished p w m m' pay a _ _ _ Hrun Hc Hf Hm Hpay
              Hco Ha) as (_ & Hfail & _ & Hpaid).
  specialize (fun H => Hpaid H lg Hlg).
  rewrite executeProjectWorkflow_run. unfold post in Hn.
  destruct (Project.workflow (p, w)) as [rb [ob wb]].
  unfold outcome_of, object_of, world_of in *. cbn [fst snd] in *.
  destruct (dle a dzero).
  - destruct (Hfail eq_refl) as (-> & E1 & E2 & _ & E4). cbn.
    split; [reflexivity|]. split; [|discriminate]. intros _.
    repeat split; cbn; congruence.
  - destruct (Hpaid eq_refl) as (Hcerr & Hcalls & Hbad & Hgood).
    assert (calls wb <> calls w) as Hgrew.
    { rewrite Hcalls. intros E. apply (f_equal length) in E.
      rewrite length_app in E. cbn in E. lia. }
    specialize (Hn Hgrew).
    destruct (bool_decide (Logger.logFileName lg ∈ unwritable w)) eqn:E.
    + apply bool_decide_eq_true in E. destruct (Hbad E) as [-> Hfiles]. cbn.
      split; [reflexivity|]. split; [discriminate|]. intros _.
      split; [|exact Hn]. split; [exact Hcalls|].
      split; intros H; [contradiction|]. cbn. split; congruence.
    + apply bool_decide_eq_false in E. destruct (Hgood E) as [-> Hfiles]. cbn.
      split; [reflexivity|]. split; [discriminate|]. intros _.
      split; [|exact Hn]. split; [exact Hcalls|].
      split; intros H; [|contradiction].
      split; [apply appended_insert; exact Hfiles|exact Hcerr].
Qed.



(** The three places where a run of [runCustomProject] branches. *)
Ltac by_type_choice :=
  match goal with
  | |- context [if (?tc =? 1)%Z then (fun s : World * Cin => _) else _] =>
      destruct (tc =? 1)%Z
  end.

Ltac by_hours :=
  match goal with
  | |- context [HourlyMilestone.setHoursWorked ?h _] =>
      destruct (dlt h dzero) eqn:?;
      [rewrite setHoursWorked_rejects by assumption
      |rewrite setHoursWorked_accepts by assumption]
  end.

Ltac workflow_returns :=
  match goal with
  | |- context [Project.executeProjectWorkflow (?P, ?W)] =>
      let Hret := fresh "Hret" in
      pose proof (wired_project_returns P W _ ltac:(discriminate)
                    ltac:(discriminate) eq_refl ltac:(discriminate)
                    ltac:(discriminate)) as Hret;
      destruct (Project.executeProjectWorkflow (P, W)) as [? [? ?]];
      unfold outcome_of in Hret; cbn [fst] in Hret; subst; cbn [fst snd]
  end.

Section InteractiveProperties.
Context `{ConsoleInput}.


(** X15. [runCustomProject] on an hourly milestone with negative hours:
    [setHoursWorked] throws, the [catch (...)] clause announces it on [cout]
    as the last line and returns.  No project is built: no payment is
    processed, the logger is not called, no file changes and nothing goes to
    [cerr]. *)
Theorem runCustomProject_negative_hours (w : World) (c : Cin) (r h : double)
    (pc tc : Z) :
  let a := custom_answers c in
  fRate a = Some r -> payChoice a = Some pc -> typeChoice a = Some tc ->
  tc <> 1%Z -> number a = Some h -> dlt h dzero = true ->
  let res := runCustomProject (w, c) in
  let w' := fst (snd res) in
  fst res = Returned tt /\
  calls w' = calls w /\ files w' = files w /\ cerr w' = cerr w /\
  exists before,
    cout w' = before ++ [Str ("Invalid hours input. Aborting." +:+ nl)].
Proof.
  cbn zeta. unfold custom_answers. typed.
  cbn [fRate payChoice typeChoice number mTitle].
  intros -> -> -> Htc -> Hneg.
  unfold runCustomProject. replay.
  rewrite (proj2 (Z.eqb_neq _ _) Htc). replay.
  rewrite setHoursWorked_rejects by assumption. replay.
  repeat (split; [reflexivity|]). eexists. reflexivity.
Qed.

(** X16. [runCustomProject] on a fixed-price milestone (type choice 1) of
    amount [A] returns normally.  When [A <= 0] the workflow reports
    [PaymentFailureException] with nothing paid or logged.  Otherwise the
    receipt in "payment_receipts.txt" carries the milestone title entered,
    [A] and the payment method chosen (escrow for choice 1, direct for any
    other), and the console notice of [processPayment] shows [A] too: the
    payment object is created again with the amount entered. *)
Theorem runCustomProject_fixed (w : World) (c : Cin) (r A : double) (pc : Z) :
  let a := custom_answers c in
  fRate a = Some r -> payChoice a = Some pc -> typeChoice a = Some 1%Z ->
  number a = Some A ->
  let res := runCustomProject (w, c) in
  let w' := fst (snd res) in
  fst res = Returned tt /\
  (dle A dzero = true -> reported PaymentFailureException w w') /\
  (dle A dzero = false ->
   receipt_logged "payment_receipts.txt" (mTitle a) A
     (label_of (chosen_payment pc A)) w w' /\
   prints (notice (chosen_payment pc A)) (cout w')).
Proof.
  cbn zeta. unfold custom_answers. typed.
  cbn [fRate payChoice typeChoice number mTitle].
  intros -> -> -> ->.
  unfold runCustomProject. replay.
  change (1 =? 1)%Z with true. replay.
  change (if (pc =? 1)%Z then Payment.Escrow A else Payment.Direct A)
    with (chosen_payment pc A).
  at_workflow p w1.
  match goal with
  | p := context [DynMilestone.Fixed ?m] |- _ =>
      destruct (fixed_completes m) as [Hco Ha]
  end.
  destruct (wired_run p w1 _ _ (chosen_payment pc A) _
              (Logger.mk "payment_receipts.txt") ltac:(discriminate)
              ltac:(discriminate) eq_refl eq_refl eq_refl Hco Ha)
    as (Hret & Hfail & Hpaid).
  destruct (Project.executeProjectWorkflow (p, w1)) as [r0 [o' w']].
  unfold outcome_of, world_of in *. cbn [fst snd] in *. subst r0.
  cbn [fst snd].
  split; [reflexivity|]. split; [exact Hfail|exact Hpaid].
Qed.

(** X17. [runCustomProject] never checks the state of [cin].  It returns
    exactly when each of the four extractions it relies on (the freelancer's
    rate, the two choices, and the amount or the hours) stored a value.
    Otherwise it reads a local variable that has no value, and it does so
    before any payment is processed, any receipt logged or anything written
    to [cerr]. *)
Theorem runCustomProject_returns_iff (w : World) (c : Cin) :
  let a := custom_answers c in
  let res := runCustomProject (w, c) in
  let w' := fst (snd res) in
  (fst res = Returned tt <->
   fRate a <> None /\ payChoice a <> None /\ typeChoice a <> None /\
   number a <> None) /\
  (fst res <> Returned tt ->
   (exists v, fst res = Undefined (UninitialisedRead v)) /\
   calls w' = calls w /\ files w' = files w /\ cerr w' = cerr w).
Proof.
  cbn zeta. unfold custom_answers. typed.
  cbn [fRate payChoice typeChoice number].
  unfold runCustomProject.
  repeat match goal with v : option _ |- _ => destruct v end; replay.
  all: try (by_type_choice; replay).
  all: try (by_hours; replay).
  all: try workflow_returns.
  all: (split;
        [split; [intros E; first [discriminate E|repeat split; discriminate]
                |intros (? & ? & ? & ?); first [reflexivity|congruence]]
        |intros Hn;
         first [exfalso; apply Hn; reflexivity
               |split; [eexists; reflexivity|repeat split]]]).
Qed.



End InteractiveProperties.


Lemma runCustomProject_negative_hours_witness :
  let res := @runCustomProject script (empty_world, typed_negative) in
  fst res = Returned tt /\ calls (fst (snd res)) = [] /\
  files (fst (snd res)) = files empty_world.
Proof.
  pose proof (@runCustomProject_negative_hours script empty_world
                typed_negative 50%float (-5)%float 1%Z 2%Z eq_refl eq_refl
                eq_refl ltac:(discriminate) eq_refl eq_refl)
    as (H1 & H2 & H3 & _).
  split; [exact H1|]. split; [exact H2|exact H3].
Defined.

Lemma runCustomProject_fixed_witness :
  let res := @runCustomProject script (empty_world, typed_fixed) in
  fst res = Returned tt /\
  receipt_logged "payment_receipts.txt" "Website" 2500%float "Direct"
    empty_world (fst (snd res)) /\
  prints (notice (Payment.Direct 2500%float)) (cout (fst (snd res))).
Proof.
  pose proof (@runCustomProject_fixed script empty_world typed_fixed
                50%float 2500%float 2%Z eq_refl eq_refl eq_refl eq_refl)
    as (H1 & _ & H3).
  split; [exact H1|exact (H3 eq_refl)].
Defined.

(** The input ends before the freelancer's rate: the rate is read without a
    value. *)
Lemma runCustomProject_returns_iff_witness :
  let res :=
    @runCustomProject script
      (empty_world, [Line "Test Client"; Line "test@test.com"]) in
  fst res = Undefined (UninitialisedRead "fRate") /\
  calls (fst (snd res)) = [].
Proof.
  pose proof (@runCustomProject_returns_iff script empty_world
                [Line "Test Client"; Line "test@test.com"])
    as [_ H2].
  destruct H2 as (_ & Hcalls & _).
  { intros E. vm_compute in E. discriminate E. }
  split; [vm_compute; reflexivity|exact Hcalls].
Defined.

